(** * Goonit: call-stack classification and the capture store

    A shallow embedding of the [core] package of goonit (the second
    document of [src/match/type.go]): the parsing of a frame's symbol name
    ([parseName]), the frame predicates ([IsMock], [IsTest]), the stack
    walk ([BuildCallerStack]) and the capture store of [BaseTest]
    ([Capture], [Captured], [CapturedOfType], [CapturedFrom],
    [CapturedOfTypeFromCall], [GetMockedCallName]).

    Go strings are byte sequences and are modelled by [string]; Go [int]
    and [rune] values are modelled by [Z]; a [*FuncInfo] is an optional
    reference; a call that ends in [t.Fatalf] or in a run-time panic is an
    explicit [outcome]. *)

From Stdlib Require Import ZArith Ascii String List Lia Bool Permutation.
From Stdlib Require DecimalString.
From stdpp Require Import base option list gmap strings.

Local Open Scope string_scope.
Local Open Scope Z_scope.

(** ** Go strings *)

Module GoString.

(** [s[n:]] for [n <= len(s)]. *)
Fixpoint slice_from (n : nat) (s : string) : string :=
  match n, s with
  | S n', String _ s' => slice_from n' s'
  | _, _ => s
  end.

(** [s[:n]] for [n <= len(s)]. *)
Fixpoint slice_to (n : nat) (s : string) : string :=
  match n, s with
  | S n', String c s' => String c (slice_to n' s')
  | _, _ => EmptyString
  end.

(** [strings.HasPrefix(s, prefix)]. *)
Fixpoint HasPrefix (s prefix : string) : bool :=
  match prefix, s with
  | EmptyString, _ => true
  | String p prefix', String c s' => Ascii.eqb c p && HasPrefix s' prefix'
  | String _ _, EmptyString => false
  end.

(** [strings.HasSuffix(s, suffix)]:
    [len(s) >= len(suffix) && s[len(s)-len(suffix):] == suffix]. *)
Definition HasSuffix (s suffix : string) : bool :=
  (String.length suffix <=? String.length s)%nat
  && String.eqb (slice_from (String.length s - String.length suffix) s) suffix.

(** [strings.TrimPrefix(s, prefix)]. *)
Definition TrimPrefix (s prefix : string) : string :=
  if HasPrefix s prefix then slice_from (String.length prefix) s else s.

(** [strings.TrimSuffix(s, suffix)]. *)
Definition TrimSuffix (s suffix : string) : string :=
  if HasSuffix s suffix
  then slice_to (String.length s - String.length suffix) s
  else s.

(** [strings.Split(s, sep)] for a separator of one byte, the only use the
    package makes of it: the substrings between the separators, in
    order; never empty. *)
Fixpoint Split (s : string) (sep : ascii) : list string :=
  match s with
  | EmptyString => [EmptyString]
  | String c s' =>
      if Ascii.eqb c sep then EmptyString :: Split s' sep
      else match Split s' sep with
           | seg :: segs => String c seg :: segs
           | [] => [String c EmptyString]
           end
  end.

(** [strings.Join(elems, sep)]. *)
Fixpoint Join (elems : list string) (sep : string) : string :=
  match elems with
  | [] => EmptyString
  | [e] => e
  | e :: rest => e +:+ sep +:+ Join rest sep
  end.

(** Decimal rendering of an [int], as [%d] prints it. *)
Definition Itoa (z : Z) : string :=
  DecimalString.NilZero.string_of_int (Z.to_int z).

End GoString.

Import GoString.

(** ** [unicode/utf8] and [unicode] *)

Module Utf8.

Definition byte (c : ascii) : Z := Z.of_N (N_of_ascii c).

Definition RuneError : Z := 0xFFFD.

Definition maskx : Z := 0x3F.
Definition mask2 : Z := 0x1F.
Definition mask3 : Z := 0x0F.
Definition mask4 : Z := 0x07.
Definition locb : Z := 0x80.
Definition hicb : Z := 0xBF.

(** The table [first]: information about the first byte of an encoding.
    [0xF0] marks ASCII, [0xF1] an invalid first byte; otherwise the low
    three bits give the size and the high four the index of the accept
    range of the second byte. *)
Definition first (b : Z) : Z :=
  if b <? 0x80 then 0xF0
  else if b <? 0xC2 then 0xF1
  else if b <? 0xE0 then 0x02
  else if b =? 0xE0 then 0x13
  else if b <? 0xED then 0x03
  else if b =? 0xED then 0x23
  else if b <? 0xF0 then 0x03
  else if b =? 0xF0 then 0x34
  else if b <? 0xF4 then 0x04
  else if b =? 0xF4 then 0x44
  else 0xF1.

Definition acceptRanges (i : Z) : Z * Z :=
  if i =? 1 then (0xA0, hicb)
  else if i =? 2 then (locb, 0x9F)
  else if i =? 3 then (0x90, hicb)
  else if i =? 4 then (locb, 0x8F)
  else (locb, hicb).

(** [utf8.DecodeRuneInString(s)]: the first rune of [s] and its width in
    bytes; [(RuneError, 0)] on the empty string and [(RuneError, 1)] on
    an invalid encoding. *)
Definition DecodeRuneInString (s : string) : Z * Z :=
  match s with
  | EmptyString => (RuneError, 0)
  | String c0 t0 =>
      let n := Z.of_nat (String.length s) in
      let s0 := byte c0 in
      let x := first s0 in
      if 0xF0 <=? x then
        let mask := if Z.testbit x 0 then (-1) else 0 in
        (Z.lor (Z.land s0 (Z.lnot mask)) (Z.land RuneError mask), 1)
      else
        let sz := Z.land x 7 in
        let accept := acceptRanges (Z.shiftr x 4) in
        if n <? sz then (RuneError, 1)
        else match t0 with
        | EmptyString => (RuneError, 1)
        | String c1 t1 =>
            let s1 := byte c1 in
            if (s1 <? fst accept) || (snd accept <? s1) then (RuneError, 1)
            else if sz <=? 2 then
              (Z.lor (Z.shiftl (Z.land s0 mask2) 6) (Z.land s1 maskx), 2)
            else match t1 with
            | EmptyString => (RuneError, 1)
            | String c2 t2 =>
                let s2 := byte c2 in
                if (s2 <? locb) || (hicb <? s2) then (RuneError, 1)
                else if sz <=? 3 then
                  (Z.lor (Z.lor (Z.shiftl (Z.land s0 mask3) 12)
                                (Z.shiftl (Z.land s1 maskx) 6))
                         (Z.land s2 maskx), 3)
                else match t2 with
                | EmptyString => (RuneError, 1)
                | String c3 _ =>
                    let s3 := byte c3 in
                    if (s3 <? locb) || (hicb <? s3) then (RuneError, 1)
                    else
                      (Z.lor (Z.lor (Z.lor (Z.shiftl (Z.land s0 mask4) 18)
                                           (Z.shiftl (Z.land s1 maskx) 12))
                                    (Z.shiftl (Z.land s2 maskx) 6))
                             (Z.land s3 maskx), 4)
                end
            end
        end
  end.

End Utf8.

Module Unicode.

Definition MaxLatin1 : Z := 0xFF.

(** The Latin-1 code points whose entry of the table [properties] is
    [pLl]. *)
Definition latin1_lower (r : Z) : bool :=
  ((0x61 <=? r) && (r <=? 0x7A))
  || (r =? 0xB5)
  || ((0xDF <=? r) && (r <=? 0xF6))
  || ((0xF8 <=? r) && (r <=? 0xFF)).

(** The range table [unicode.Lower] (category Ll, Unicode 14.0), as
    triples (lo, hi, stride). *)
Definition Lower : list (Z * Z * Z) := [
(0x61, 0x7A, 1); (0xB5, 0xB5, 1); (0xDF, 0xF6, 1); (0xF8, 0xFF, 1);
(0x101, 0x137, 2); (0x138, 0x148, 2); (0x149, 0x177, 2);
(0x17A, 0x17E, 2); (0x17F, 0x180, 1); (0x183, 0x183, 1);
(0x185, 0x185, 1); (0x188, 0x188, 1); (0x18C, 0x18D, 1);
(0x192, 0x192, 1); (0x195, 0x195, 1); (0x199, 0x19B, 1);
(0x19E, 0x19E, 1); (0x1A1, 0x1A5, 2); (0x1A8, 0x1A8, 1);
(0x1AA, 0x1AB, 1); (0x1AD, 0x1AD, 1); (0x1B0, 0x1B0, 1);
(0x1B4, 0x1B4, 1); (0x1B6, 0x1B6, 1); (0x1B9, 0x1BA, 1);
(0x1BD, 0x1BF, 1); (0x1C6, 0x1CC, 3); (0x1CE, 0x1DC, 2);
(0x1DD, 0x1EF, 2); (0x1F0, 0x1F0, 1); (0x1F3, 0x1F3, 1);
(0x1F5, 0x1F5, 1); (0x1F9, 0x233, 2); (0x234, 0x239, 1);
(0x23C, 0x23C, 1); (0x23F, 0x240, 1); (0x242, 0x242, 1);
(0x247, 0x24F, 2); (0x250, 0x293, 1); (0x295, 0x2AF, 1);
(0x371, 0x371, 1); (0x373, 0x37B, 4); (0x37C, 0x37D, 1);
(0x390, 0x390, 1); (0x3AC, 0x3CE, 1); (0x3D0, 0x3D1, 1);
(0x3D5, 0x3D7, 1); (0x3D9, 0x3EF, 2); (0x3F0, 0x3F3, 1);
(0x3F5, 0x3FB, 3); (0x3FC, 0x3FC, 1); (0x430, 0x45F, 1);
(0x461, 0x481, 2); (0x48B, 0x4BF, 2); (0x4C2, 0x4CE, 2);
(0x4CF, 0x52F, 2); (0x560, 0x588, 1); (0x10D0, 0x10FA, 1);
(0x10FD, 0x10FF, 1); (0x13F8, 0x13FD, 1); (0x1C80, 0x1C88, 1);
(0x1D00, 0x1D2B, 1); (0x1D6B, 0x1D77, 1); (0x1D79, 0x1D9A, 1);
(0x1E01, 0x1E95, 2); (0x1E96, 0x1E9D, 1); (0x1E9F, 0x1EFF, 2);
(0x1F00, 0x1F07, 1); (0x1F10, 0x1F15, 1); (0x1F20, 0x1F27, 1);
(0x1F30, 0x1F37, 1); (0x1F40, 0x1F45, 1); (0x1F50, 0x1F57, 1);
(0x1F60, 0x1F67, 1); (0x1F70, 0x1F7D, 1); (0x1F80, 0x1F87, 1);
(0x1F90, 0x1F97, 1); (0x1FA0, 0x1FA7, 1); (0x1FB0, 0x1FB4, 1);
(0x1FB6, 0x1FB7, 1); (0x1FBE, 0x1FBE, 1); (0x1FC2, 0x1FC4, 1);
(0x1FC6, 0x1FC7, 1); (0x1FD0, 0x1FD3, 1); (0x1FD6, 0x1FD7, 1);
(0x1FE0, 0x1FE7, 1); (0x1FF2, 0x1FF4, 1); (0x1FF6, 0x1FF7, 1);
(0x210A, 0x210A, 1); (0x210E, 0x210F, 1); (0x2113, 0x2113, 1);
(0x212F, 0x2139, 5); (0x213C, 0x213D, 1); (0x2146, 0x2149, 1);
(0x214E, 0x214E, 1); (0x2184, 0x2184, 1); (0x2C30, 0x2C5F, 1);
(0x2C61, 0x2C61, 1); (0x2C65, 0x2C66, 1); (0x2C68, 0x2C6C, 2);
(0x2C71, 0x2C71, 1); (0x2C73, 0x2C74, 1); (0x2C76, 0x2C7B, 1);
(0x2C81, 0x2CE3, 2); (0x2CE4, 0x2CE4, 1); (0x2CEC, 0x2CEC, 1);
(0x2CEE, 0x2CEE, 1); (0x2CF3, 0x2CF3, 1); (0x2D00, 0x2D25, 1);
(0x2D27, 0x2D27, 1); (0x2D2D, 0x2D2D, 1); (0xA641, 0xA66D, 2);
(0xA681, 0xA69B, 2); (0xA723, 0xA72F, 2); (0xA730, 0xA731, 1);
(0xA733, 0xA771, 2); (0xA772, 0xA778, 1); (0xA77A, 0xA77A, 1);
(0xA77C, 0xA77C, 1); (0xA77F, 0xA787, 2); (0xA78C, 0xA78C, 1);
(0xA78E, 0xA78E, 1); (0xA791, 0xA791, 1); (0xA793, 0xA795, 1);
(0xA797, 0xA7A9, 2); (0xA7AF, 0xA7AF, 1); (0xA7B5, 0xA7C3, 2);
(0xA7C8, 0xA7C8, 1); (0xA7CA, 0xA7CA, 1); (0xA7D1, 0xA7D9, 2);
(0xA7F6, 0xA7F6, 1); (0xA7FA, 0xA7FA, 1); (0xAB30, 0xAB5A, 1);
(0xAB60, 0xAB68, 1); (0xAB70, 0xABBF, 1); (0xFB00, 0xFB06, 1);
(0xFB13, 0xFB17, 1); (0xFF41, 0xFF5A, 1); (0x10428, 0x1044F, 1);
(0x104D8, 0x104FB, 1); (0x10597, 0x105A1, 1); (0x105A3, 0x105B1, 1);
(0x105B3, 0x105B9, 1); (0x105BB, 0x105BC, 1); (0x10CC0, 0x10CF2, 1);
(0x118C0, 0x118DF, 1); (0x16E60, 0x16E7F, 1); (0x1D41A, 0x1D433, 1);
(0x1D44E, 0x1D454, 1); (0x1D456, 0x1D467, 1); (0x1D482, 0x1D49B, 1);
(0x1D4B6, 0x1D4B9, 1); (0x1D4BB, 0x1D4BB, 1); (0x1D4BD, 0x1D4C3, 1);
(0x1D4C5, 0x1D4CF, 1); (0x1D4EA, 0x1D503, 1); (0x1D51E, 0x1D537, 1);
(0x1D552, 0x1D56B, 1); (0x1D586, 0x1D59F, 1); (0x1D5BA, 0x1D5D3, 1);
(0x1D5EE, 0x1D607, 1); (0x1D622, 0x1D63B, 1); (0x1D656, 0x1D66F, 1);
(0x1D68A, 0x1D6A5, 1); (0x1D6C2, 0x1D6DA, 1); (0x1D6DC, 0x1D6E1, 1);
(0x1D6FC, 0x1D714, 1); (0x1D716, 0x1D71B, 1); (0x1D736, 0x1D74E, 1);
(0x1D750, 0x1D755, 1); (0x1D770, 0x1D788, 1); (0x1D78A, 0x1D78F, 1);
(0x1D7AA, 0x1D7C2, 1); (0x1D7C4, 0x1D7C9, 1); (0x1D7CB, 0x1D7CB, 1);
(0x1DF00, 0x1DF09, 1); (0x1DF0B, 0x1DF1E, 1); (0x1E922, 0x1E943, 1)
].

Definition in_range (r : Z) (rg : Z * Z * Z) : bool :=
  let '(lo, hi, stride) := rg in
  (lo <=? r) && (r <=? hi) && ((r - lo) mod stride =? 0).

(** [unicode.IsLower(r)]. *)
Definition IsLower (r : Z) : bool :=
  if (0 <=? r) && (r <=? MaxLatin1) then latin1_lower r
  else existsb (in_range r) Lower.

End Unicode.

(** ** [FuncInfo]: one resolved frame and its parsed name *)

(** [Name] stands for the embedded [*runtime.Func], of which the package
    only uses [Name()]. *)
Record FuncInfo : Type := mkFuncInfo {
  Name : string;
  Function : string;
  Object : string;
  Package : string;
  File : string;
  Line : Z
}.

Definition dot : ascii := "."%char.

Definition isObjectRef (s : string) : bool :=
  if HasPrefix s "(" && HasSuffix s ")" then true else false.

(** [findObjectRef] returns [(i, true)] as [Some i] and [(-1, false)] as
    [None]. *)
Fixpoint findObjectRef_from (i : nat) (refs : list string) : option nat :=
  match refs with
  | [] => None
  | s :: rest => if isObjectRef s then Some i else findObjectRef_from (S i) rest
  end.

Definition findObjectRef (refs : list string) : option nat :=
  findObjectRef_from 0 refs.

Definition trimObjectRef (s : string) : string :=
  TrimPrefix (TrimPrefix (TrimSuffix s ")") "(") "*".

Definition parseName (f : FuncInfo) : FuncInfo :=
  let nameElems := Split (Name f) dot in
  if (length nameElems <? 2)%nat then
    mkFuncInfo (Name f) (Name f) (Object f) (Package f) (File f) (Line f)
  else
    match findObjectRef nameElems with
    | Some objIndex =>
        mkFuncInfo (Name f)
          (Join (drop (objIndex + 1) nameElems) ".")
          (trimObjectRef (nth objIndex nameElems EmptyString))
          (Join (take objIndex nameElems) ".")
          (File f) (Line f)
    | None =>
        mkFuncInfo (Name f)
          (nth (length nameElems - 1) nameElems EmptyString)
          (Object f)
          (Join (take (length nameElems - 1) nameElems) ".")
          (File f) (Line f)
    end.

Definition NewFuncInfo (name file : string) (line : Z) : FuncInfo :=
  parseName (mkFuncInfo name EmptyString EmptyString EmptyString file line).

(** [startsWith]: the prefix alone, or the prefix followed by a rune that
    is not a lower-case letter. *)
Definition startsWith (name prefix : string) : bool :=
  if negb (HasPrefix name prefix) then false
  else if (String.length name =? String.length prefix)%nat then true
  else
    let nextChar :=
      fst (Utf8.DecodeRuneInString (slice_from (String.length prefix) name)) in
    negb (Unicode.IsLower nextChar).

Definition IsMock (f : FuncInfo) : bool :=
  startsWith (Object f) "Mock".

Definition IsTest (f : FuncInfo) : bool :=
  startsWith (Function f) "Test"
  || startsWith (Function f) "Benchmark"
  || startsWith (Function f) "Example".

Definition FileLine (f : FuncInfo) : string :=
  File f +:+ ":" +:+ Itoa (Line f).

Definition LogString (f : FuncInfo) : string :=
  if String.eqb (Object f) EmptyString
  then Package f +:+ "." +:+ Function f +:+ " at " +:+ FileLine f
  else Object f +:+ "." +:+ Function f +:+ " at " +:+ FileLine f.

(** ** The goroutine's stack, as [runtime.Caller] reports it *)

(** One frame as [runtime.Caller] and [runtime.FuncForPC] describe it:
    [raw_func] is [None] when [FuncForPC] returns nil, otherwise the name
    of the function. *)
Record RawFrame : Type := mkRawFrame {
  raw_func : option string;
  raw_file : string;
  raw_line : Z
}.

(** The stack seen from inside [CallerFuncInfo]: position [i] is the frame
    [runtime.Caller(i)] reports (0 is [CallerFuncInfo] itself, 1 its
    caller, and so on); beyond the end [runtime.Caller] reports [!ok]. *)
Definition goroutine : Type := list RawFrame.

(** A non-nil [*FuncInfo]. Every successful [CallerFuncInfo(i)] allocates a
    new [FuncInfo], and one walk asks for each depth once, so within a walk
    the depth identifies the allocation: two references are the same
    pointer when their depths agree. The [FuncInfo] is never written after
    [parseName], so the reference carries it. A [*FuncInfo] is an
    [option FuncInfoRef], [None] being nil. *)
Record FuncInfoRef : Type := mkRef {
  depth : nat;
  info : FuncInfo
}.

Definition same_ptr (p q : option FuncInfoRef) : bool :=
  match p, q with
  | None, None => true
  | Some a, Some b => (depth a =? depth b)%nat
  | _, _ => false
  end.

(** The part of [CallerFuncInfo] that follows a successful
    [runtime.Caller]. *)
Definition resolve (callerIndex : nat) (fr : RawFrame) : option FuncInfoRef :=
  if String.eqb (raw_file fr) "<autogenerated>" then None
  else match raw_func fr with
       | None => None
       | Some name =>
           Some (mkRef callerIndex (NewFuncInfo name (raw_file fr) (raw_line fr)))
       end.

Definition CallerFuncInfo (stk : goroutine) (callerIndex : nat)
  : option FuncInfoRef :=
  match stk !! callerIndex with
  | None => None
  | Some fr => resolve callerIndex fr
  end.

Record FuncInfoStack : Type := mkStack {
  Caller : option FuncInfoRef;
  Stack : list FuncInfoRef;
  Test : option FuncInfoRef;
  Tested : option FuncInfoRef;
  Mocked : option FuncInfoRef;
  Mocker : option FuncInfoRef;
  last : option FuncInfoRef;
  this : option FuncInfoRef
}.

Definition emptyStack : FuncInfoStack :=
  mkStack None [] None None None None None None.

Definition set_Caller (v : option FuncInfoRef) (s : FuncInfoStack) :=
  mkStack v (Stack s) (Test s) (Tested s) (Mocked s) (Mocker s) (last s) (this s).
Definition set_Stack (v : list FuncInfoRef) (s : FuncInfoStack) :=
  mkStack (Caller s) v (Test s) (Tested s) (Mocked s) (Mocker s) (last s) (this s).
Definition set_Test (v : option FuncInfoRef) (s : FuncInfoStack) :=
  mkStack (Caller s) (Stack s) v (Tested s) (Mocked s) (Mocker s) (last s) (this s).
Definition set_Tested (v : option FuncInfoRef) (s : FuncInfoStack) :=
  mkStack (Caller s) (Stack s) (Test s) v (Mocked s) (Mocker s) (last s) (this s).
Definition set_Mocked (v : option FuncInfoRef) (s : FuncInfoStack) :=
  mkStack (Caller s) (Stack s) (Test s) (Tested s) v (Mocker s) (last s) (this s).
Definition set_Mocker (v : option FuncInfoRef) (s : FuncInfoStack) :=
  mkStack (Caller s) (Stack s) (Test s) (Tested s) (Mocked s) v (last s) (this s).
Definition set_last (v : option FuncInfoRef) (s : FuncInfoStack) :=
  mkStack (Caller s) (Stack s) (Test s) (Tested s) (Mocked s) (Mocker s) v (this s).
Definition set_this (v : option FuncInfoRef) (s : FuncInfoStack) :=
  mkStack (Caller s) (Stack s) (Test s) (Tested s) (Mocked s) (Mocker s) (last s) v.

(** The body of the loop of [BuildCallerStack] for one resolved frame [f].
    [this] is [s.this], which is set before the loop and not assigned in
    it. *)
Definition visit (this : FuncInfoRef) (s : FuncInfoStack) (f : FuncInfoRef)
  : FuncInfoStack :=
  let s := set_Stack (Stack s ++ [f]) s in
  let s :=
    if same_ptr (Caller s) None
       && negb (String.eqb (Package (info f)) (Package (info this)))
    then set_Caller (Some f) s else s in
  let s := if same_ptr (last s) (Mocked s) then set_Mocker (Some f) s else s in
  let s := if IsMock (info f) then set_Mocked (Some f) s else s in
  let s :=
    if IsTest (info f) then set_Tested (last s) (set_Test (Some f) s) else s in
  set_last (Some f) s.

(** The loop [for i := ...; ; i++]: [frames] are the frames of the stack
    from depth [i] on, so its head is what [runtime.Caller(i)] reports.
    The loop ends at the first depth that does not resolve. *)
Fixpoint walk (this : FuncInfoRef) (frames : list RawFrame) (i : nat)
  (s : FuncInfoStack) : FuncInfoStack :=
  match frames with
  | [] => s
  | fr :: rest =>
      match resolve i fr with
      | None => s
      | Some f => walk this rest (S i) (visit this s f)
      end
  end.

Definition BuildCallerStack (stk : goroutine) : FuncInfoStack :=
  let s := emptyStack in
  match CallerFuncInfo stk 1 with
  | None => s
  | Some this => walk this (drop 3 stk) 3 (set_this (Some this) s)
  end.

(** ** Calls that may not return *)

Inductive panic : Type :=
| NilDereference
| IndexOutOfRange (index len : Z).

(** [Return a]: the call returns [a]. [Fatalf d]: the call ends in
    [t.Fatalf], which marks the test failed and stops its goroutine.
    [Panic p]: the call ends in a run-time panic. *)
Inductive outcome (D A : Type) : Type :=
| Return (a : A)
| Fatalf (d : D)
| Panic (p : panic).

Arguments Return {D A} a.
Arguments Fatalf {D A} d.
Arguments Panic {D A} p.

#[global] Instance outcome_bind {D : Type} : MBind (outcome D) :=
  fun A B (k : A -> outcome D B) (m : outcome D A) =>
    match m with
    | Return a => k a
    | Fatalf d => Fatalf d
    | Panic p => Panic p
    end.

(** [MockedCall] reads [s.Mocker] and [s.Mocked] without a nil check. *)
Definition MockedCall {D : Type} (s : FuncInfoStack) : outcome D string :=
  match Mocker s with
  | None => Panic NilDereference
  | Some mocker =>
      match Mocked s with
      | None => Panic NilDereference
      | Some mocked =>
          Return (Join [Object (info mocker); Function (info mocker);
                        Object (info mocked); Function (info mocked)] ".")
      end
  end.

Definition GetMockedCallName {D : Type} (stk : goroutine) : outcome D string :=
  let s := BuildCallerStack stk in
  MockedCall s.

Definition GetCallerInfo (stk : goroutine) : option FuncInfoRef :=
  let s := BuildCallerStack stk in
  Caller s.

(** [p.LogString()] on a [*FuncInfo] that may be nil. *)
Definition LogString_of {D : Type} (p : option FuncInfoRef) : outcome D string :=
  match p with
  | None => Panic NilDereference
  | Some r => Return (LogString (info r))
  end.

(** Go's [int] is 64 bits wide; [+] wraps around. *)
Definition int_wrap (z : Z) : Z := (z + 2 ^ 63) mod 2 ^ 64 - 2 ^ 63.
Definition int_add (a b : Z) : Z := int_wrap (a + b).

(** ** The capture store of [BaseTest] *)

Section CaptureStore.

(** [rtype] stands for [reflect.Type], [AssignableTo v t] for
    [v.AssignableTo(t)], [data] for what an interface value holds besides
    its dynamic type. *)
Context {rtype data : Type}.
Variable AssignableTo : rtype -> rtype -> bool.

(** An [interface{}]: nil, or a dynamic type with its data. *)
Definition any : Type := option (rtype * data).

(** [reflect.TypeOf(v)]; what [%T] prints. *)
Definition TypeOf (v : any) : option rtype := fst <$> v.

(** The arguments of a format string. *)
Inductive arg : Type :=
| ArgString (s : string)
| ArgInt (z : Z)
| ArgType (t : option rtype)
| ArgStrings (l : list string)
| ArgCapTypes (l : list (option rtype * any)).

(** A formatted message, kept as the format of the source and its
    arguments. For a failed [Expect] it is the description the source
    passes, which gomega prints ahead of the matcher's own message. *)
Record diag : Type := mkDiag {
  format : string;
  args : list arg
}.

(** The fields of [BaseTest] the store uses; [logged] is what [x.t.Logf]
    has written. *)
Record BaseTest : Type := mkBaseTest {
  captured : list any;
  capsFrom : gmap string (list any);
  logged : list diag
}.

(** The store of [New(t)]. *)
Definition New : BaseTest := mkBaseTest [] ∅ [].

(** [AssignableToTypeOfMatcher.Match] of gomega: [None] when it returns
    an error (the expected value is nil), otherwise [Some success]. *)
Definition Match (expected actual : any) : option bool :=
  match expected, actual with
  | None, _ => None
  | Some _, None => Some false
  | Some (expectedType, _), Some (actualType, _) =>
      Some (AssignableTo actualType expectedType)
  end.

Definition Capture (x : BaseTest) (stk : goroutine) (values : list any)
  : outcome diag BaseTest :=
  let stack := BuildCallerStack stk in
  x ← (if same_ptr (Mocked stack) None then
         (caller ← LogString_of (Caller stack);
          Return (mkBaseTest (captured x) (capsFrom x)
                    (logged x ++ [mkDiag "NO MOCK FOUND FOR CAPTURE from %s"
                                         [ArgString caller]])%list))
       else
         (key ← MockedCall stack;
          let caps := match capsFrom x !! key with
                      | Some caps => caps
                      | None => []
                      end in
          key' ← MockedCall stack;
          Return (mkBaseTest (captured x)
                    (<[key' := (caps ++ values)%list]> (capsFrom x))
                    (logged x))));
  Return (mkBaseTest (captured x ++ values)%list (capsFrom x) (logged x)).

Definition AllCaptured (x : BaseTest) : list any := captured x.

(** [x.captured[index]]. *)
Definition index_captured (x : BaseTest) (index : Z) : outcome diag any :=
  if (0 <=? index) && (index <? Z.of_nat (length (captured x))) then
    match captured x !! Z.to_nat index with
    | Some v => Return v
    | None => Panic (IndexOutOfRange index (Z.of_nat (length (captured x))))
    end
  else Panic (IndexOutOfRange index (Z.of_nat (length (captured x)))).

Definition Captured (x : BaseTest) (index : Z) (expectTypeOf : any)
  : outcome diag any :=
  let len := Z.of_nat (length (captured x)) in
  if (len =? 0) then
    Fatalf (mkDiag "There were no captured parameter values!" [])
  else if negb (int_add index 1 <=? len) then
    Fatalf (mkDiag "There were only %d captured parameter values - cannot retrieve index %d"
              [ArgInt len; ArgInt index])
  else
    actual ← index_captured x index;
    match Match expectTypeOf actual with
    | Some true => Return actual
    | _ =>
        Fatalf (mkDiag "Captured parameter type %T at index %d is not assignable to type %T"
                  [ArgType (TypeOf actual); ArgInt index;
                   ArgType (TypeOf expectTypeOf)])
    end.

Definition capturedOfType (expectTypeOf : any) (caps : list any) : list any :=
  List.filter
    (fun cap => match Match expectTypeOf cap with
                | Some matched => matched
                | None => false
                end)
    caps.

(** [for ... := range x.capsFrom] visits the keys of the map in an order
    Go leaves unspecified; [order] is the order of one execution. *)
Definition range_values (x : BaseTest) (order : list string) : list (list any) :=
  omap (fun key => capsFrom x !! key) order.

Definition capturedKeys (x : BaseTest) (order : list string) : list string :=
  omap (fun key => (fun _ => key) <$> capsFrom x !! key) order.

Definition CapturedOfType (x : BaseTest) (order : list string)
  (stk : goroutine) (expectTypeOf : any) : outcome diag (list any) :=
  let caps :=
    List.concat (List.map (capturedOfType expectTypeOf) (range_values x order)) in
  if (length caps =? 0)%nat then
    (caller ← LogString_of (GetCallerInfo stk);
     Fatalf (mkDiag "There were no captured parameters of type %T for %s"
               [ArgType (TypeOf expectTypeOf); ArgString caller]))
  else Return caps.

Definition CapturedFrom (x : BaseTest) (order : list string)
  (stk : goroutine) (mockCall : string) : outcome diag (list any) :=
  if bool_decide (capsFrom x = ∅) then
    Fatalf (mkDiag "There were no captured parameter values!" [])
  else
    match capsFrom x !! mockCall with
    | None =>
        caller ← LogString_of (GetCallerInfo stk);
        Fatalf (mkDiag "at %s there were no captures from mock call '%s'!  keys %v"
                  [ArgString caller; ArgString mockCall;
                   ArgStrings (capturedKeys x order)])
    | Some caps => Return caps
    end.

(** [stk_from] is the stack the walk under [CapturedFrom] sees, [stk] the
    one the walk under [CapturedOfTypeFromCall] itself sees. *)
Definition CapturedOfTypeFromCall (x : BaseTest) (order : list string)
  (stk_from stk : goroutine) (expectTypeOf : any) (mockCall : string)
  : outcome diag (list any) :=
  capsFrom ← CapturedFrom x order stk_from mockCall;
  let caps := capturedOfType expectTypeOf capsFrom in
  if (length caps =? 0)%nat then
    (caller ← LogString_of (GetCallerInfo stk);
     let capTypes := List.map (fun cap : any => (TypeOf cap, cap)) caps in
     Fatalf (mkDiag "at %s there were no captures of type %T from mock call '%s'!  keys %v  values %v"
               [ArgString caller; ArgType (TypeOf expectTypeOf);
                ArgString mockCall; ArgStrings (capturedKeys x order);
                ArgCapTypes capTypes]))
  else Return caps.

(** The values of all buckets that match the expected type. *)
Definition matching (x : BaseTest) (expectTypeOf : any) : list any :=
  flat_map (capturedOfType expectTypeOf) (map_to_list (capsFrom x)).*2.

End CaptureStore.

Arguments arg : clear implicits.
Arguments diag : clear implicits.
Arguments BaseTest : clear implicits.
Arguments any : clear implicits.

(** ** Two predeclared types

    [int] and [string], the types of the values the examples capture. Each
    is assignable to itself and not to the other. *)

Inductive basic : Type := Int | Str.

Inductive basic_data : Type :=
| IntVal (z : Z)
| StrVal (s : string).

Definition basic_AssignableTo (v t : basic) : bool :=
  match v, t with
  | Int, Int | Str, Str => true
  | _, _ => false
  end.

Definition int_ (z : Z) : any basic basic_data := Some (Int, IntVal z).
Definition string_ (s : string) : any basic basic_data := Some (Str, StrVal s).

(** ** What the statements below speak of *)

(** [s] is [prefix] alone, or [prefix] followed by a rune that is not a
    lower-case letter. *)
Definition word_prefix (prefix s : string) : Prop :=
  exists rest : string,
    s = prefix +:+ rest
    /\ (rest = EmptyString
        \/ (rest <> EmptyString
            /\ Unicode.IsLower (fst (Utf8.DecodeRuneInString rest)) = false)).

(** [seg] is wrapped in parentheses. *)
Definition wrapped (seg : string) : Prop :=
  exists body : string, seg = "(" +:+ body +:+ ")".

(** [body] without one leading [*], if it has one. *)
Definition strip_star (body : string) : string :=
  match body with
  | String "*" r => r
  | _ => body
  end.

(** The frames the loop of a walk resolves over [frames], from depth [i]
    outward, up to the first that does not resolve. *)
Fixpoint walked (frames : list RawFrame) (i : nat) : list FuncInfoRef :=
  match frames with
  | [] => []
  | fr :: rest =>
      match resolve i fr with
      | None => []
      | Some f => f :: walked rest (S i)
      end
  end.

(** The frames [BuildCallerStack] walks on [stk], in the order of the
    walk. *)
Definition walk_frames (stk : goroutine) : list FuncInfoRef :=
  match CallerFuncInfo stk 1 with
  | None => []
  | Some _ => walked (drop 3 stk) 3
  end.

(** The classification after the first [k] iterations of the walk of
    [stk]. *)
Definition walk_state (stk : goroutine) (k : nat) : FuncInfoStack :=
  match CallerFuncInfo stk 1 with
  | None => emptyStack
  | Some this =>
      fold_left (visit this) (take k (walk_frames stk))
        (set_this (Some this) emptyStack)
  end.

(** The last element of a list of frames, nil for the empty list. *)
Definition last_frame (l : list FuncInfoRef) : option FuncInfoRef :=
  fold_left (fun _ f => Some f) l None.

(** ** Example stacks *)

(** The symbol name of the method [fn] of a pointer receiver [recv]
    declared in the package [pkg]. *)
Definition ptr_method (pkg recv fn : string) : string :=
  pkg +:+ "." +:+ "(" +:+ "*" +:+ recv +:+ ")" +:+ "." +:+ fn.

Definition frame (name file : string) (line : Z) : RawFrame :=
  mkRawFrame (Some name) file line.

(** The three innermost frames of a walk that the method [method] of
    [BaseTest] starts: [CallerFuncInfo], [BuildCallerStack] and the method
    itself. *)
Definition core_frames (method : string) (line : Z) : goroutine :=
  [frame "github.com/sbernheim/goonit/core.CallerFuncInfo" "core/type.go" 356;
   frame (ptr_method "github.com/sbernheim/goonit/core" "BaseTest"
            "BuildCallerStack") "core/type.go" 432;
   frame (ptr_method "github.com/sbernheim/goonit/core" "BaseTest" method)
     "core/type.go" line].

Definition test_runner : goroutine :=
  [frame "testing.tRunner" "testing/testing.go" 1259;
   frame "runtime.goexit" "runtime/asm_amd64.s" 1581].

(** [TestFoo] calls the method itself; no mock is involved. *)
Definition stack_direct (method : string) (line : Z) : goroutine :=
  (core_frames method line
   ++ frame "example.com/app.TestFoo" "app/app_test.go" 12 :: test_runner)%list.

(** [TestSend] calls the method [Send] of [Service], which calls the
    method [Info] of the mock [MockLogger]; gomock runs the action of the
    test, a closure that calls [Capture]. *)
Definition stack_mocked : goroutine :=
  (core_frames "Capture" 219
   ++ [frame "example.com/app.TestSend.func1" "app/app_test.go" 31;
       frame (ptr_method "github.com/golang/mock/gomock" "Call" "Do.func1")
         "gomock/call.go" 119;
       frame (ptr_method "github.com/golang/mock/gomock" "Controller" "Call")
         "gomock/controller.go" 231;
       frame (ptr_method "example.com/app/mock" "MockLogger" "Info")
         "app/mock/mockLogger.go" 58;
       frame (ptr_method "example.com/app" "Service" "Send")
         "app/service.go" 40;
       frame "example.com/app.TestSend" "app/app_test.go" 35]
   ++ test_runner)%list.

(** A mock that calls a second mock, under a test helper that is named
    like a test. *)
Definition stack_nested : goroutine :=
  (core_frames "Capture" 219
   ++ [frame (ptr_method "example.com/app" "MockInner" "Get")
         "app/mock_inner.go" 20;
       frame (ptr_method "example.com/app" "MockOuter" "Get")
         "app/mock_outer.go" 22;
       frame "example.com/app.TestHelper" "app/app_test.go" 50;
       frame "example.com/app.TestAll" "app/app_test.go" 60]
   ++ test_runner)%list.

(** [TestFoo] calls the retrieval method [method], whose diagnostic asks
    [GetCallerInfo] for the caller. *)
Definition stack_lookup (method : string) (line : Z) : goroutine :=
  (core_frames "GetCallerInfo" 460
   ++ frame (ptr_method "github.com/sbernheim/goonit/core" "BaseTest" method)
        "core/type.go" line
      :: frame "example.com/app.TestFoo" "app/app_test.go" 12 :: test_runner)%list.

(** The key under which [stack_mocked] buckets its captures, and the store
    after [Capture(42)] on that stack. *)
Definition key_mocked : string := "Service.Send.MockLogger.Info".

Definition store_mocked_42 : BaseTest basic basic_data :=
  mkBaseTest [int_ 42] {[ key_mocked := [int_ 42] ]} [].

(** The store after [Capture(42)] on [stack_direct]: no mock frame, one
    line logged. *)
Definition store_direct_42 : BaseTest basic basic_data :=
  mkBaseTest [int_ 42] ∅
    [mkDiag "NO MOCK FOUND FOR CAPTURE from %s"
       [ArgString "example.com/app.TestFoo at app/app_test.go:12"]].

(** ** Notions for the further properties *)

(** Every frame the classification singles out is one of the frames of its
    frame sequence. *)
Definition refs_in_Stack (s : FuncInfoStack) : Prop :=
  forall p : FuncInfoRef,
    In (Some p) [Caller s; Test s; Tested s; Mocked s; Mocker s; last s] ->
    p ∈ Stack s.

(** [g] lies outside the package of the walker [thisRef]. *)
Definition outside (thisRef g : FuncInfoRef) : Prop :=
  Package (info g) <> Package (info thisRef).

(** ** The stacks the runtime reports

    [runtime.Caller] leaves the wrappers the compiler generates out of
    what it reports, so a walk meets no frame with the file
    [<autogenerated>] and none without its function; and the outermost
    frame of a goroutine is [runtime.goexit], which lies outside the
    package of the walker. [resolved fr]: the part of [CallerFuncInfo]
    that follows [runtime.Caller] resolves [fr]. [reported stk]: every
    frame of [stk] is resolved, [stk] has a frame at depth 3, where the
    walk starts, and the package of its outermost frame is not the package
    of the frame at depth 1, the walker. *)
Definition resolved (fr : RawFrame) : bool :=
  negb (String.eqb (raw_file fr) "<autogenerated>")
  && match raw_func fr with
     | Some _ => true
     | None => false
     end.

Definition reported (stk : goroutine) : bool :=
  forallb resolved stk
  && (3 <? length stk)%nat
  && match CallerFuncInfo stk 1, CallerFuncInfo stk (length stk - 1) with
     | Some thisRef, Some outermost =>
         negb (String.eqb (Package (info outermost)) (Package (info thisRef)))
     | _, _ => false
     end.

(** ** More of the capture store *)

Section CaptureStoreMore.

Context {rtype data : Type}.
Variable AssignableTo : rtype -> rtype -> bool.

(** [x.CapturedOfType(expectTypeOf)[0]]. *)
Definition FirstCapturedOfType (x : BaseTest rtype data) (order : list string)
  (stk : goroutine) (expectTypeOf : any rtype data)
  : outcome (diag rtype data) (any rtype data) :=
  caps ← CapturedOfType AssignableTo x order stk expectTypeOf;
  match caps with
  | v :: _ => Return v
  | [] => Panic (IndexOutOfRange 0 0)
  end.

(** A run of calls of [Capture], each with the stack it is made on and the
    values it is given. *)
Fixpoint Captures (x : BaseTest rtype data)
  (calls : list (goroutine * list (any rtype data)))
  : outcome (diag rtype data) (BaseTest rtype data) :=
  match calls with
  | [] => Return x
  | (stk, values) :: rest => x' ← Capture x stk values; Captures x' rest
  end.

(** Every bucket is a subsequence of the global sequence. *)
Definition buckets_within (x : BaseTest rtype data) : Prop :=
  forall (key : string) (bucket : list (any rtype data)),
    capsFrom x !! key = Some bucket -> sublist bucket (captured x).

End CaptureStoreMore.

(** Three calls of [Capture], the second of which is made with no mock on
    the stack, and the store they leave; the store after [Capture("a")]
    on [stack_mocked] where [store_mocked_42] was before. *)
Definition calls_three : list (goroutine * list (any basic basic_data)) :=
  [(stack_mocked, [string_ "a"]);
   (stack_direct "Capture" 219, [int_ 42]);
   (stack_mocked, [string_ "b"])].

Definition store_three : BaseTest basic basic_data :=
  mkBaseTest [string_ "a"; int_ 42; string_ "b"]
    {[ key_mocked := [string_ "a"; string_ "b"] ]}
    [mkDiag "NO MOCK FOUND FOR CAPTURE from %s"
       [ArgString "example.com/app.TestFoo at app/app_test.go:12"]].

Definition store_mocked_42_a : BaseTest basic basic_data :=
  mkBaseTest [int_ 42; string_ "a"]
    {[ key_mocked := [int_ 42; string_ "a"] ]} [].

(** ** Environment, arguments and what [Done] restores *)

(** What the process holds: [Environ] maps the names that are set in the
    environment to their values; [os_Args] is [os.Args], nil or a slice. *)
Record Process : Type := mkProcess {
  Environ : gmap string string;
  os_Args : option (list string)
}.

(** A function handed to [DoAfter], as the closure it is: its code and the
    variables it captured. [MockFinish] is the function [New] starts with,
    which calls [mockProvider.Finish()]; [RestoreEnv] and [ClearEnv] are
    the two functions of [restoreExistingEnvAfter]; [RestoreArgs] is the
    function of [restoreExistingArgsAfter]. *)
Inductive deferred : Type :=
| MockFinish
| RestoreEnv (name currentVal : string)
| ClearEnv (name : string)
| RestoreArgs (currentArgs : list string).

(** The fields of [BaseTest] these helpers use: [afterFunc], the chain of
    closures [func() { f(); doAfterFunc() }], oldest first, and [x_args],
    the field [args]. *)
Record Fixture : Type := mkFixture {
  afterFunc : list deferred;
  x_args : option (list string)
}.

(** The fixture of [New(t)]. *)
Definition NewFixture : Fixture := mkFixture [MockFinish] None.

Section Environment.

Context {rtype data : Type}.

(** [Setenv_ok name val]: [os.Setenv(name, val)] succeeds; when it does
    not, it returns an error, which the package drops, and the
    environment stays as it is. [mockFinish] is what
    [mockProvider.Finish()] does: it returns, or fails the test. *)
Variable Setenv_ok : string -> string -> bool.
Variable mockFinish : outcome (diag rtype data) unit.

Definition os_LookupEnv (name : string) (p : Process) : option string :=
  Environ p !! name.

Definition os_Setenv (name val : string) (p : Process) : Process :=
  if Setenv_ok name val
  then mkProcess (<[name := val]> (Environ p)) (os_Args p)
  else p.

Definition os_Unsetenv (name : string) (p : Process) : Process :=
  mkProcess (delete name (Environ p)) (os_Args p).

Definition DoAfter (doAfterFunc : deferred) (x : Fixture) : Fixture :=
  mkFixture (afterFunc x ++ [doAfterFunc]) (x_args x).

Definition restoreExistingEnvAfter (name : string) (x : Fixture) (p : Process)
  : Fixture :=
  match os_LookupEnv name p with
  | Some currentVal => DoAfter (RestoreEnv name currentVal) x
  | None => DoAfter (ClearEnv name) x
  end.

Definition SetEnv (name val : string) (st : Fixture * Process)
  : Fixture * Process :=
  let '(x, p) := st in
  (restoreExistingEnvAfter name x p, os_Setenv name val p).

(** [splitPairs]: [None] when a slice expression [namesAndValues[i:i+2]]
    reaches past the length, which is the case of an odd length. *)
Fixpoint splitPairs (namesAndValues : list string) : option (list (list string)) :=
  match namesAndValues with
  | [] => Some []
  | [_] => None
  | name :: val :: rest => cons [name; val] <$> splitPairs rest
  end.

(** [namesAndValues] is nil ([None]) when [SetEnvs] is called with no
    argument. *)
Definition SetEnvs (st : Fixture * Process) (namesAndValues : option (list string))
  : outcome (diag rtype data) (Fixture * Process) :=
  let l := default [] namesAndValues in
  if bool_decide (namesAndValues <> None) && (length l <? 2)%nat then
    Fatalf (mkDiag "must set at least one name and value pair! passed values %v"
              [ArgStrings l])
  else if (length l mod 2 =? 1)%nat then
    Fatalf (mkDiag "must pass names and values in even pairs! passed %d values %v"
              [ArgInt (Z.of_nat (length l)); ArgStrings l])
  else
    match splitPairs l with
    | None =>
        Panic (IndexOutOfRange (Z.of_nat (length l + 1)) (Z.of_nat (length l)))
    | Some pairs =>
        Return (fold_left
                  (fun st pair =>
                     SetEnv (nth 0 pair EmptyString) (nth 1 pair EmptyString) st)
                  pairs st)
    end.

Definition commandArg (p : Process) : string :=
  match os_Args p with
  | None | Some [] => "fakeCommand"
  | Some (arg0 :: _) => arg0
  end.

Definition restoreExistingArgsAfter (x : Fixture) (p : Process) : Fixture :=
  match os_Args p with
  | Some currentArgs => DoAfter (RestoreArgs currentArgs) x
  | None => x
  end.

Definition SetArgs (args : list string) (st : Fixture * Process)
  : Fixture * Process :=
  let '(x, p) := st in
  let x := restoreExistingArgsAfter x p in
  let x := mkFixture (afterFunc x) (Some ([] ++ args)%list) in
  (x, mkProcess (Environ p) (x_args x)).

(** Running one deferred function. *)
Definition run_deferred (d : deferred) (p : Process)
  : outcome (diag rtype data) Process :=
  match d with
  | MockFinish => _ ← mockFinish; Return p
  | RestoreEnv name currentVal => Return (os_Setenv name currentVal p)
  | ClearEnv name => Return (os_Unsetenv name p)
  | RestoreArgs currentArgs => Return (mkProcess (Environ p) (Some currentArgs))
  end.

(** Running the chain: each closure runs the older functions first and its
    own last. *)
Fixpoint run_after (chain : list deferred) (p : Process)
  : outcome (diag rtype data) Process :=
  match chain with
  | [] => Return p
  | d :: rest => p' ← run_deferred d p; run_after rest p'
  end.

Definition Done (x : Fixture) (p : Process) : outcome (diag rtype data) Process :=
  run_after (afterFunc x) p.

(** The process as a run of the chain leaves it, whether the run reaches
    the end of the chain or one of its functions does not return: that
    function, [mockProvider.Finish()], does not touch the process, and the
    functions after it do not run. *)
Fixpoint left_by (chain : list deferred) (p : Process) : Process :=
  match chain with
  | [] => p
  | d :: rest =>
      match run_deferred d p with
      | Return p' => left_by rest p'
      | _ => p
      end
  end.

(** [names_and_values pairs]: the arguments of a call
    [SetEnvs(name1, val1, name2, val2, ...)]. *)
Definition names_and_values (pairs : list (string * string)) : list string :=
  flat_map (fun pair => [pair.1; pair.2]) pairs.

(** The function [restoreExistingEnvAfter] defers for [name] when the
    environment is that of [p]. *)
Definition restore_of (p : Process) (name : string) : deferred :=
  match Environ p !! name with
  | Some currentVal => RestoreEnv name currentVal
  | None => ClearEnv name
  end.

(** Every entry of the environment is one [os.Setenv] accepts. *)
Definition Environ_settable (p : Process) : Prop :=
  forall name val, Environ p !! name = Some val -> Setenv_ok name val = true.

End Environment.

(** What [os.Setenv] accepts on Unix: a name that is not empty and holds
    neither [=] nor a NUL byte, and a value that holds no NUL byte. *)
Fixpoint has_byte (b : ascii) (s : string) : bool :=
  match s with
  | EmptyString => false
  | String c s' => Ascii.eqb c b || has_byte b s'
  end.

Definition unix_Setenv_ok (name val : string) : bool :=
  negb (String.eqb name EmptyString)
  && negb (has_byte "="%char name)
  && negb (has_byte "000"%char name)
  && negb (has_byte "000"%char val).


(** A process with one variable set and two arguments, and two pairs for
    [SetEnvs]. *)
Definition process_start : Process :=
  mkProcess {[ "HOME" := "/root" ]} (Some ["app.test"; "-test.v"]).

Definition env_pairs : list (string * string) :=
  [("HOME", "/tmp/home"); ("MODE", "test")].

(** The fixture and the process after [SetEnvs] of [env_pairs] on a new
    fixture in [process_start]. *)
Definition fixture_env : Fixture :=
  mkFixture [MockFinish; RestoreEnv "HOME" "/root"; ClearEnv "MODE"] None.

Definition process_env : Process :=
  mkProcess (<[ "MODE" := "test" ]> (<[ "HOME" := "/tmp/home" ]> {[ "HOME" := "/root" ]}))
    (Some ["app.test"; "-test.v"]).

(** The frames of [stack_mocked] seen by a walk that [GetMockedCallName]
    starts from the place where [Capture] is called. *)
Definition stack_mocked_name : goroutine :=
  (core_frames "GetMockedCallName" 455 ++ drop 3 stack_mocked)%list.
(** * Properties *)

(** ** Go strings *)

Section GoStringFacts.

Lemma append_cons (c : ascii) (a b : string) :
  String c a +:+ b = String c (a +:+ b).
Proof. reflexivity. Qed.

Lemma append_nil_r (s : string) : s +:+ EmptyString = s.
Proof.
  induction s as [|c s IH]; [reflexivity|].
  rewrite append_cons. now f_equal.
Qed.

Lemma append_assoc (a b c : string) : (a +:+ b) +:+ c = a +:+ (b +:+ c).
Proof.
  induction a as [|x a IH]; [reflexivity|].
  rewrite !append_cons. now f_equal.
Qed.

Lemma length_append (a b : string) :
  String.length (a +:+ b) = (String.length a + String.length b)%nat.
Proof.
  induction a as [|x a IH]; [reflexivity|].
  rewrite append_cons. simpl. now f_equal.
Qed.

Lemma append_inj_l (a b c : string) : a +:+ b = a +:+ c -> b = c.
Proof.
  induction a as [|x a IH]; intros H; [exact H|].
  rewrite !append_cons in H. injection H as H. now apply IH.
Qed.

Lemma slice_from_append (a b : string) :
  slice_from (String.length a) (a +:+ b) = b.
Proof.
  induction a as [|x a IH]; [now destruct b|].
  rewrite append_cons. exact IH.
Qed.

Lemma slice_to_append (a b : string) :
  slice_to (String.length a) (a +:+ b) = a.
Proof.
  induction a as [|x a IH]; [now destruct b|].
  rewrite append_cons. simpl. now f_equal.
Qed.

Lemma slice_to_from (n : nat) (s : string) :
  slice_to n s +:+ slice_from n s = s.
Proof.
  revert s; induction n as [|n IH]; intros [|c s]; simpl; try reflexivity.
  rewrite append_cons. f_equal. apply IH.
Qed.

Lemma length_slice_from (n : nat) (s : string) :
  String.length (slice_from n s) = (String.length s - n)%nat.
Proof.
  revert s; induction n as [|n IH]; intros [|c s]; simpl; try reflexivity.
  apply IH.
Qed.

Lemma HasPrefix_iff (s prefix : string) :
  HasPrefix s prefix = true <-> exists rest, s = prefix +:+ rest.
Proof.
  revert s; induction prefix as [|p prefix IH]; intros s.
  - split; [intros _; now exists s | intros _; now destruct s].
  - destruct s as [|c s]; simpl.
    + split; [discriminate | intros [rest H]; discriminate].
    + rewrite andb_true_iff, Ascii.eqb_eq, IH. split.
      * intros [-> [rest ->]]. now exists rest.
      * intros [rest H]. rewrite append_cons in H. injection H as -> ->.
        split; [reflexivity | now exists rest].
Qed.

Lemma HasSuffix_iff (s suffix : string) :
  HasSuffix s suffix = true <-> exists front, s = front +:+ suffix.
Proof.
  unfold HasSuffix. rewrite andb_true_iff, Nat.leb_le, String.eqb_eq. split.
  - intros [_ H]. exists (slice_to (String.length s - String.length suffix) s).
    rewrite <- H at 2. symmetry. apply slice_to_from.
  - intros [front ->]. rewrite length_append. split; [lia|].
    replace (String.length front + String.length suffix - String.length suffix)%nat
      with (String.length front) by lia.
    apply slice_from_append.
Qed.

Lemma TrimPrefix_append (prefix rest : string) :
  TrimPrefix (prefix +:+ rest) prefix = rest.
Proof.
  unfold TrimPrefix.
  replace (HasPrefix (prefix +:+ rest) prefix) with true.
  - apply slice_from_append.
  - symmetry. apply HasPrefix_iff. now exists rest.
Qed.

Lemma TrimSuffix_append (front suffix : string) :
  TrimSuffix (front +:+ suffix) suffix = front.
Proof.
  unfold TrimSuffix.
  replace (HasSuffix (front +:+ suffix) suffix) with true.
  - rewrite length_append.
    replace (String.length front + String.length suffix - String.length suffix)%nat
      with (String.length front) by lia.
    apply slice_to_append.
  - symmetry. apply HasSuffix_iff. now exists front.
Qed.

Lemma Split_nonempty (s : string) (sep : ascii) : Split s sep <> [].
Proof.
  induction s as [|c s IH]; simpl; [discriminate|].
  destruct (Ascii.eqb c sep); [discriminate|].
  destruct (Split s sep); [contradiction | discriminate].
Qed.

(** Joining the segments with the separator gives the string back. *)
Lemma Join_Split (s : string) (sep : ascii) :
  Join (Split s sep) (String sep EmptyString) = s.
Proof.
  induction s as [|c s IH]; simpl; [reflexivity|].
  destruct (Ascii.eqb c sep) eqn:E.
  - apply Ascii.eqb_eq in E as ->.
    pose proof (Split_nonempty s sep) as Hne.
    destruct (Split s sep) as [|seg segs]; [contradiction|].
    simpl in *. now rewrite IH.
  - pose proof (Split_nonempty s sep) as Hne.
    destruct (Split s sep) as [|seg segs]; [contradiction|].
    destruct segs as [|seg' segs]; simpl in *; now rewrite <- IH.
Qed.

(** A string has one segment exactly when it holds no separator. *)
Lemma Split_single (s : string) (sep : ascii) :
  (length (Split s sep) < 2)%nat -> Split s sep = [s].
Proof.
  intros H. pose proof (Join_Split s sep) as J.
  pose proof (Split_nonempty s sep) as Hne.
  destruct (Split s sep) as [|seg [|seg' segs]]; simpl in *;
    [contradiction | now subst | lia].
Qed.

End GoStringFacts.

(** ** Parsing a symbol name *)

Section ParseName.

Lemma isObjectRef_iff (s : string) : isObjectRef s = true <-> wrapped s.
Proof.
  unfold isObjectRef, wrapped.
  destruct (HasPrefix s "(" && HasSuffix s ")") eqn:E.
  - apply andb_true_iff in E as [Hp Hs].
    apply HasPrefix_iff in Hp as [rest ->].
    apply HasSuffix_iff in Hs as [front Hs].
    split; [intros _ | reflexivity].
    destruct front as [|c front].
    + discriminate Hs.
    + change ("(" +:+ rest) with (String "(" rest) in *.
      rewrite append_cons in Hs. injection Hs as <- ->.
      now exists front.
  - split; [discriminate|]. intros [body ->].
    assert (HasPrefix ("(" +:+ body +:+ ")") "(" = true) as Hp
      by (apply HasPrefix_iff; now exists (body +:+ ")")).
    assert (HasSuffix ("(" +:+ body +:+ ")") ")" = true) as Hs
      by (apply HasSuffix_iff; exists ("(" +:+ body); now rewrite append_assoc).
    rewrite Hp, Hs in E. discriminate E.
Qed.

Lemma isObjectRef_false_iff (s : string) : isObjectRef s = false <-> ~ wrapped s.
Proof.
  rewrite <- isObjectRef_iff. destruct (isObjectRef s); split; congruence.
Qed.

(** Both parentheses go, and then one leading [*] at most. *)
Lemma trimObjectRef_wrapped (body : string) :
  trimObjectRef ("(" +:+ body +:+ ")") = strip_star body.
Proof.
  unfold trimObjectRef.
  replace ("(" +:+ body +:+ ")") with (("(" +:+ body) +:+ ")")
    by now rewrite append_assoc.
  rewrite TrimSuffix_append, TrimPrefix_append.
  destruct body as [|c body]; [reflexivity|].
  unfold TrimPrefix, strip_star. simpl.
  destruct (Ascii.eqb c "*") eqn:E.
  - apply Ascii.eqb_eq in E as ->. now destruct body.
  - apply Ascii.eqb_neq in E.
    destruct c as [[] [] [] [] [] [] [] []]; try reflexivity. now contradiction E.
Qed.

(** [findObjectRef] finds the first wrapped segment. *)
Lemma findObjectRef_from_Some (refs : list string) (k i : nat) :
  findObjectRef_from k refs = Some i <->
  exists j seg, i = (k + j)%nat /\ refs !! j = Some seg /\ wrapped seg
    /\ forall j' s, (j' < j)%nat -> refs !! j' = Some s -> ~ wrapped s.
Proof.
  revert k; induction refs as [|r refs IH]; intros k; simpl.
  - split; [discriminate | intros (j & seg & _ & H & _); discriminate].
  - destruct (isObjectRef r) eqn:E.
    + apply isObjectRef_iff in E. split.
      * intros [= <-]. exists 0%nat, r. repeat split; [lia | assumption | lia].
      * intros (j & seg & -> & Hj & Hw & Hfirst).
        destruct j as [|j]; [f_equal; lia|].
        exfalso. apply (Hfirst 0%nat r); [lia | reflexivity | assumption].
    + apply isObjectRef_false_iff in E. rewrite IH. split.
      * intros (j & seg & -> & Hj & Hw & Hfirst).
        exists (S j), seg. repeat split; [lia | assumption | assumption |].
        intros [|j'] s Hlt Hs; [now injection Hs as <- |].
        apply (Hfirst j' s); [lia | assumption].
      * intros (j & seg & -> & Hj & Hw & Hfirst).
        destruct j as [|j]; [injection Hj as <-; contradiction|].
        exists j, seg. repeat split; [lia | assumption | assumption |].
        intros j' s Hlt Hs. apply (Hfirst (S j') s); [lia | assumption].
Qed.

Lemma findObjectRef_from_None (refs : list string) (k : nat) :
  findObjectRef_from k refs = None <-> forall s, s ∈ refs -> ~ wrapped s.
Proof.
  revert k; induction refs as [|r refs IH]; intros k; simpl.
  - split; [intros _ s Hs; inversion Hs | reflexivity].
  - destruct (isObjectRef r) eqn:E.
    + apply isObjectRef_iff in E. split; [discriminate|].
      intros H. exfalso. apply (H r); [left | assumption].
    + apply isObjectRef_false_iff in E. rewrite IH. split.
      * intros H s Hs. inversion Hs; subst; [assumption | now apply H].
      * intros H s Hs. apply H. now right.
Qed.

Lemma nth_lookup_string (l : list string) (i : nat) (s : string) :
  l !! i = Some s -> nth i l EmptyString = s.
Proof.
  revert i; induction l as [|x l IH]; intros [|i]; simpl; try discriminate.
  - now intros [= ->].
  - apply IH.
Qed.

(** C3. For every raw name: with fewer than two dot-separated segments the
    function name is the whole name and receiver and namespace are empty;
    otherwise, when a segment is wrapped in parentheses, the first such
    segment is the receiver marker: the function name is the dot-join of
    the segments after it (empty when it is the last one), the receiver is
    the segment without its parentheses and without one leading [*], and
    the namespace is the dot-join of the segments before it; with no
    wrapped segment the function name is the last segment, the namespace
    the dot-join of the segments before it, and the receiver is empty. *)
Theorem parseName_spec (name file : string) (line : Z) :
  let f := NewFuncInfo name file line in
  let segs := Split name dot in
  Join segs "." = name
  /\ ((length segs < 2)%nat ->
      Function f = name /\ Object f = EmptyString /\ Package f = EmptyString)
  /\ ((2 <= length segs)%nat ->
      (forall (i : nat) (body : string),
          segs !! i = Some ("(" +:+ body +:+ ")") ->
          (forall j s, (j < i)%nat -> segs !! j = Some s -> ~ wrapped s) ->
          Function f = Join (drop (S i) segs) "."
          /\ (S i = length segs -> Function f = EmptyString)
          /\ Object f = strip_star body
          /\ Package f = Join (take i segs) ".")
      /\ ((forall s, s ∈ segs -> ~ wrapped s) ->
          exists front final,
            segs = (front ++ [final])%list
            /\ Function f = final
            /\ Package f = Join front "."
            /\ Object f = EmptyString)).
Proof.
  intros f segs. split; [apply Join_Split|].
  unfold f, NewFuncInfo, parseName; simpl Name. fold segs.
  split.
  - intros Hlt. apply Nat.ltb_lt in Hlt as Hb. rewrite Hb. simpl.
    repeat split.
  - intros Hge. assert ((length segs <? 2)%nat = false) as Hb
      by (apply Nat.ltb_ge; lia).
    rewrite Hb. split.
    + intros i body Hi Hfirst.
      assert (findObjectRef segs = Some i) as ->.
      { apply findObjectRef_from_Some. exists i, ("(" +:+ body +:+ ")").
        repeat split; [assumption | now exists body | assumption]. }
      simpl. replace (i + 1)%nat with (S i) by lia.
      rewrite (nth_lookup_string _ _ _ Hi), trimObjectRef_wrapped.
      repeat split. intros Hlast. rewrite Hlast, drop_all. reflexivity.
    + intros Hnone.
      assert (findObjectRef segs = None) as ->
        by now apply findObjectRef_from_None.
      simpl. destruct (decide (segs = [])) as [->|Hne]; [simpl in Hge; lia|].
      destruct (exists_last Hne) as (front & final & Hsegs).
      exists front, final. rewrite Hsegs at 1. split; [reflexivity|].
      rewrite Hsegs, length_app. simpl.
      replace (length front + 1 - 1)%nat with (length front) by lia.
      rewrite app_nth2 by lia. rewrite Nat.sub_diag. simpl.
      rewrite take_app_length. repeat split.
Qed.

End ParseName.

(** ** The frame predicates *)

Section Predicates.

Lemma startsWith_iff (name prefix : string) :
  startsWith name prefix = true <-> word_prefix prefix name.
Proof.
  unfold startsWith, word_prefix.
  destruct (HasPrefix name prefix) eqn:Hp; simpl.
  - apply HasPrefix_iff in Hp as [rest ->].
    rewrite length_append, slice_from_append.
    destruct rest as [|c rest].
    + rewrite Nat.add_0_r, Nat.eqb_refl. split; [intros _ | reflexivity].
      exists EmptyString. split; [reflexivity | now left].
    + replace (String.length prefix + String.length (String c rest)
               =? String.length prefix)%nat with false
        by (symmetry; apply Nat.eqb_neq; simpl; lia).
      rewrite negb_true_iff. split.
      * intros H. exists (String c rest). split; [reflexivity|].
        right. split; [discriminate | exact H].
      * intros (rest' & Heq & H). apply append_inj_l in Heq as <-.
        destruct H as [H | [_ H]]; [discriminate H | exact H].
  - split; [discriminate|]. intros (rest & -> & _).
    assert (HasPrefix (prefix +:+ rest) prefix = true) as H
      by (apply HasPrefix_iff; now exists rest).
    rewrite H in Hp. discriminate Hp.
Qed.

(** C4. [IsTest] holds exactly when the function name starts with "Test",
    "Benchmark" or "Example" and that prefix is the whole name or is
    followed by a character that is not a lower-case letter; it holds of
    "TestFoo", "Test", "BenchmarkX" and "ExampleY" and not of
    "Testing". *)
Theorem IsTest_spec :
  (forall f : FuncInfo,
      IsTest f = true <->
      word_prefix "Test" (Function f)
      \/ word_prefix "Benchmark" (Function f)
      \/ word_prefix "Example" (Function f))
  /\ (forall f, Function f = "TestFoo" -> IsTest f = true)
  /\ (forall f, Function f = "Testing" -> IsTest f = false)
  /\ (forall f, Function f = "Test" -> IsTest f = true)
  /\ (forall f, Function f = "BenchmarkX" -> IsTest f = true)
  /\ (forall f, Function f = "ExampleY" -> IsTest f = true).
Proof.
  split.
  - intros f. unfold IsTest.
    rewrite !orb_true_iff, !startsWith_iff. tauto.
  - repeat split; intros f Hf; unfold IsTest; rewrite Hf; reflexivity.
Qed.

(** C5, as the code has it. [IsMock] holds exactly when the receiver-type
    name starts with "Mock" and that prefix is the whole name or is
    followed by a character that is not a lower-case letter; it holds of
    "MockLogger" and not of "Mocker", "mocker" or "Mockish". *)
Theorem IsMock_spec :
  (forall f : FuncInfo, IsMock f = true <-> word_prefix "Mock" (Object f))
  /\ (forall f, Object f = "MockLogger" -> IsMock f = true)
  /\ (forall f, Object f = "Mocker" -> IsMock f = false)
  /\ (forall f, Object f = "mocker" -> IsMock f = false)
  /\ (forall f, Object f = "Mockish" -> IsMock f = false).
Proof.
  split.
  - intros f. unfold IsMock. apply startsWith_iff.
  - repeat split; intros f Hf; unfold IsMock; rewrite Hf; reflexivity.
Qed.

(** C5, as the spec has it, fails: the method [Do] of a receiver named
    [Mocker] is not a mock frame, the rune after "Mock" being the
    lower-case [e]. *)
Lemma IsMock_Mocker_counterexample :
  Object (NewFuncInfo (ptr_method "pkg" "Mocker" "Do") "mocker.go" 10) = "Mocker"
  /\ IsMock (NewFuncInfo (ptr_method "pkg" "Mocker" "Do") "mocker.go" 10) <> true.
Proof. split; [reflexivity | discriminate]. Qed.

End Predicates.

(** ** The stack walk *)

#[local] Arguments visit : simpl never.
#[local] Arguments IsMock : simpl never.
#[local] Arguments IsTest : simpl never.

Section Walk.

Variable thisRef : FuncInfoRef.

Lemma walk_fold (frames : list RawFrame) (i : nat) (s : FuncInfoStack) :
  walk thisRef frames i s = fold_left (visit thisRef) (walked frames i) s.
Proof.
  revert i s; induction frames as [|fr frames IH]; intros i s; simpl.
  - reflexivity.
  - destruct (resolve i fr) as [f|]; simpl; [apply IH | reflexivity].
Qed.

Lemma walked_depth (frames : list RawFrame) (i k : nat) (f : FuncInfoRef) :
  walked frames i !! k = Some f -> depth f = (i + k)%nat.
Proof.
  revert i k; induction frames as [|fr frames IH]; intros i k; simpl.
  - discriminate.
  - unfold resolve.
    destruct (String.eqb (raw_file fr) "<autogenerated>"); [discriminate|].
    destruct (raw_func fr) as [name|]; [|discriminate].
    destruct k as [|k]; simpl.
    + intros [= <-]. simpl. lia.
    + intros H. apply IH in H. lia.
Qed.

(** What one iteration does to each field. *)

Ltac visit_cases s :=
  destruct s as [c st t td md mr l th]; unfold visit; simpl;
  repeat (case_match; simpl in * ); try congruence.

Lemma visit_Stack s f : Stack (visit thisRef s f) = (Stack s ++ [f])%list.
Proof. visit_cases s. Qed.

Lemma visit_last s f : last (visit thisRef s f) = Some f.
Proof. reflexivity. Qed.

Lemma visit_this s f : this (visit thisRef s f) = this s.
Proof. visit_cases s. Qed.

Lemma visit_Caller s f :
  Caller (visit thisRef s f) =
  match Caller s with
  | Some p => Some p
  | None =>
      if negb (String.eqb (Package (info f)) (Package (info thisRef)))
      then Some f else None
  end.
Proof. visit_cases s. Qed.

Lemma visit_Mocked s f :
  Mocked (visit thisRef s f) = if IsMock (info f) then Some f else Mocked s.
Proof. visit_cases s. Qed.

Lemma visit_Mocker s f :
  Mocker (visit thisRef s f) =
  if same_ptr (last s) (Mocked s) then Some f else Mocker s.
Proof. visit_cases s. Qed.

Lemma visit_Test s f :
  Test (visit thisRef s f) = if IsTest (info f) then Some f else Test s.
Proof. visit_cases s. Qed.

Lemma visit_Tested s f :
  Tested (visit thisRef s f) = if IsTest (info f) then last s else Tested s.
Proof. visit_cases s. Qed.

(** What the rest of the walk does to each field. *)

Local Abbreviation run := (fold_left (visit thisRef)).

Lemma run_cons l f s : run (f :: l) s = run l (visit thisRef s f).
Proof. reflexivity. Qed.

Lemma run_snoc l f s : run (l ++ [f]) s = visit thisRef (run l s) f.
Proof. now rewrite fold_left_app. Qed.

Lemma run_Stack l s : Stack (run l s) = (Stack s ++ l)%list.
Proof.
  revert s; induction l as [|f l IH]; intros s; simpl.
  - now rewrite app_nil_r.
  - rewrite IH, visit_Stack, <- app_assoc. reflexivity.
Qed.

Lemma run_this l s : this (run l s) = this s.
Proof.
  revert s; induction l as [|f l IH]; intros s; simpl; [reflexivity|].
  now rewrite IH, visit_this.
Qed.

Lemma last_frame_snoc l f : last_frame (l ++ [f]) = Some f.
Proof. unfold last_frame. now rewrite fold_left_app. Qed.

Lemma run_last l s :
  last (run l s) = match last_frame l with Some f => Some f | None => last s end.
Proof.
  induction l as [|f l _] using rev_ind; [reflexivity|].
  now rewrite run_snoc, visit_last, last_frame_snoc.
Qed.

(** [Caller] is guarded by [s.Caller == nil]: once set it stays. *)
Lemma run_Caller_set l s p : Caller s = Some p -> Caller (run l s) = Some p.
Proof.
  revert s; induction l as [|f l IH]; intros s H; simpl; [exact H|].
  apply IH. now rewrite visit_Caller, H.
Qed.

Lemma run_Caller_first pre f post s :
  Caller s = None ->
  Forall (fun g => Package (info g) = Package (info thisRef)) pre ->
  Package (info f) <> Package (info thisRef) ->
  Caller (run (pre ++ f :: post) s) = Some f.
Proof.
  revert s; induction pre as [|g pre IH]; intros s Hs Hpre Hf; simpl.
  - apply run_Caller_set. rewrite visit_Caller, Hs.
    apply String.eqb_neq in Hf. now rewrite Hf.
  - inversion Hpre as [|? ? Hg Hpre']; subst.
    apply IH; [|assumption..].
    rewrite visit_Caller, Hs, Hg, String.eqb_refl. reflexivity.
Qed.

Lemma run_Caller_none l s :
  Caller s = None ->
  Forall (fun g => Package (info g) = Package (info thisRef)) l ->
  Caller (run l s) = None.
Proof.
  revert s; induction l as [|g l IH]; intros s Hs Hl; simpl; [exact Hs|].
  inversion Hl as [|? ? Hg Hl']; subst. apply IH; [|assumption].
  rewrite visit_Caller, Hs, Hg, String.eqb_refl. reflexivity.
Qed.

(** Frames that are no mock frames leave [Mocked] alone; frames that are
    no test frames leave [Test] and [Tested] alone. *)
Lemma run_Mocked_keep l s :
  Forall (fun g => IsMock (info g) = false) l -> Mocked (run l s) = Mocked s.
Proof.
  revert s; induction l as [|g l IH]; intros s Hl; simpl; [reflexivity|].
  inversion Hl as [|? ? Hg Hl']; subst.
  rewrite IH by assumption. now rewrite visit_Mocked, Hg.
Qed.

Lemma run_Test_keep l s :
  Forall (fun g => IsTest (info g) = false) l ->
  Test (run l s) = Test s /\ Tested (run l s) = Tested s.
Proof.
  revert s; induction l as [|g l IH]; intros s Hl; simpl; [now split|].
  inversion Hl as [|? ? Hg Hl']; subst.
  destruct (IH (visit thisRef s g) Hl') as [-> ->].
  now rewrite visit_Test, visit_Tested, Hg.
Qed.

(** While [last] and [Mocked] are different pointers, [Mocker] stays. *)
Lemma run_Mocker_keep l s m h :
  Mocked s = Some m -> last s = Some h -> depth h <> depth m ->
  Forall (fun g => IsMock (info g) = false /\ depth g <> depth m) l ->
  Mocker (run l s) = Mocker s.
Proof.
  revert s h; induction l as [|g l IH]; intros s h Hm Hh Hne Hl; simpl;
    [reflexivity|].
  inversion Hl as [|? ? [Hg Hd] Hl']; subst.
  rewrite (IH (visit thisRef s g) g); try assumption.
  - rewrite visit_Mocker, Hm, Hh. simpl.
    apply Nat.eqb_neq in Hne. now rewrite Hne.
  - now rewrite visit_Mocked, Hg.
  - apply visit_last.
Qed.

(** With no mock frame so far, [last] and [Mocked] are both nil before the
    first iteration only. *)
Lemma run_Mocker_no_mock l s h :
  Mocked s = None -> last s = Some h ->
  Forall (fun g => IsMock (info g) = false) l ->
  Mocker (run l s) = Mocker s.
Proof.
  revert s h; induction l as [|g l IH]; intros s h Hm Hh Hl; simpl;
    [reflexivity|].
  inversion Hl as [|? ? Hg Hl']; subst.
  rewrite (IH (visit thisRef s g) g); try assumption.
  - now rewrite visit_Mocker, Hm, Hh.
  - now rewrite visit_Mocked, Hg.
  - apply visit_last.
Qed.

End Walk.

Section BuildCallerStackFacts.

Variable stk : goroutine.

Lemma BuildCallerStack_run (thisRef : FuncInfoRef) :
  CallerFuncInfo stk 1 = Some thisRef ->
  BuildCallerStack stk =
  fold_left (visit thisRef) (walk_frames stk) (set_this (Some thisRef) emptyStack).
Proof.
  intros H. unfold BuildCallerStack, walk_frames. rewrite H. apply walk_fold.
Qed.

Lemma BuildCallerStack_unresolved :
  CallerFuncInfo stk 1 = None -> BuildCallerStack stk = emptyStack.
Proof. intros H. unfold BuildCallerStack. now rewrite H. Qed.

(** The frame sequence of the classification is the sequence walked. *)
Lemma Stack_walk_frames : Stack (BuildCallerStack stk) = walk_frames stk.
Proof.
  destruct (CallerFuncInfo stk 1) as [thisRef|] eqn:H.
  - rewrite (BuildCallerStack_run _ H), run_Stack. reflexivity.
  - rewrite (BuildCallerStack_unresolved H). unfold walk_frames. now rewrite H.
Qed.

Lemma walk_frames_depth (k : nat) (f : FuncInfoRef) :
  walk_frames stk !! k = Some f -> depth f = (3 + k)%nat.
Proof.
  unfold walk_frames. destruct (CallerFuncInfo stk 1); [|discriminate].
  apply walked_depth.
Qed.

Lemma walk_state_all (k : nat) :
  (length (walk_frames stk) <= k)%nat -> walk_state stk k = BuildCallerStack stk.
Proof.
  intros Hk. unfold walk_state.
  destruct (CallerFuncInfo stk 1) as [thisRef|] eqn:H.
  - rewrite (BuildCallerStack_run _ H), take_ge by assumption. reflexivity.
  - now rewrite (BuildCallerStack_unresolved H).
Qed.

Lemma walked_nonempty_resolved (f : FuncInfoRef) (rest : list FuncInfoRef) :
  walk_frames stk = f :: rest -> exists thisRef, CallerFuncInfo stk 1 = Some thisRef.
Proof.
  unfold walk_frames. destruct (CallerFuncInfo stk 1) as [thisRef|];
    [now exists thisRef | discriminate].
Qed.

(** With no mock frame among the walked frames, [Mocked] is nil. *)
Lemma no_mock_Mocked_nil :
  Forall (fun g => IsMock (info g) = false) (Stack (BuildCallerStack stk)) ->
  Mocked (BuildCallerStack stk) = None.
Proof.
  rewrite Stack_walk_frames. intros Hno.
  destruct (CallerFuncInfo stk 1) as [thisRef|] eqn:H.
  - rewrite (BuildCallerStack_run _ H), run_Mocked_keep by assumption.
    reflexivity.
  - now rewrite (BuildCallerStack_unresolved H).
Qed.

End BuildCallerStackFacts.

(** Closes [Forall P l] for a list [l] that evaluates to given frames, each
    of which satisfies [P] by evaluation. *)
Lemma Forall_false_forallb (p : FuncInfoRef -> bool) (l : list FuncInfoRef) :
  forallb (fun g => negb (p g)) l = true -> Forall (fun g => p g = false) l.
Proof.
  induction l as [|g l IH]; simpl; [intros _; apply Forall_nil_2|].
  intros [Hg Hl]%andb_true_iff. apply Forall_cons_2; [|now apply IH].
  now apply negb_true_iff.
Qed.

Ltac forall_frames p :=
  apply (Forall_false_forallb p); vm_compute; reflexivity.

(** C1, as the code has it. When the walk resolves at least one frame and
    none of them is a mock frame, [Mocked] is nil but [Mocker] is not: it
    is the first walked frame, because before the first iteration [last]
    and [Mocked] are both nil and so compare equal. *)
Theorem no_mock_Mocker_first (stk : goroutine) (f : FuncInfoRef)
  (rest : list FuncInfoRef) :
  Stack (BuildCallerStack stk) = f :: rest ->
  Forall (fun g => IsMock (info g) = false) (Stack (BuildCallerStack stk)) ->
  Mocked (BuildCallerStack stk) = None
  /\ Mocker (BuildCallerStack stk) = Some f.
Proof.
  intros Hst Hno. split; [now apply no_mock_Mocked_nil|].
  rewrite Stack_walk_frames in Hst, Hno.
  destruct (walked_nonempty_resolved _ _ _ Hst) as [thisRef H].
  rewrite (BuildCallerStack_run _ _ H), Hst. simpl.
  rewrite Hst in Hno. inversion Hno as [|? ? Hf Hrest]; subst.
  rewrite (run_Mocker_no_mock thisRef rest _ f).
  - now rewrite visit_Mocker.
  - now rewrite visit_Mocked, Hf.
  - apply visit_last.
  - assumption.
Qed.

(** [TestFoo] calls [Capture] itself: no frame of the walk is a mock frame,
    and [Mocker] is the frame of [TestFoo]. *)
Lemma no_mock_Mocker_first_witness :
  Mocked (BuildCallerStack (stack_direct "Capture" 219)) = None
  /\ Mocker (BuildCallerStack (stack_direct "Capture" 219))
     = Some (mkRef 3 (NewFuncInfo "example.com/app.TestFoo" "app/app_test.go" 12)).
Proof.
  apply (no_mock_Mocker_first (stack_direct "Capture" 219) _
           [mkRef 4 (NewFuncInfo "testing.tRunner" "testing/testing.go" 1259);
            mkRef 5 (NewFuncInfo "runtime.goexit" "runtime/asm_amd64.s" 1581)]).
  - vm_compute; reflexivity.
  - forall_frames (fun g => IsMock (info g)).
Defined.

(** C2, as the spec has it, fails: in the walk of [stack_nested] the
    fields [Mocked], [Mocker], [Test] and [Tested] are each set to one
    frame and later to another. *)
Lemma later_frame_overwrites :
  (depth <$> Mocked (walk_state stack_nested 1) = Some 3%nat
   /\ depth <$> Mocked (BuildCallerStack stack_nested) = Some 4%nat)
  /\ (depth <$> Mocker (walk_state stack_nested 1) = Some 3%nat
      /\ depth <$> Mocker (BuildCallerStack stack_nested) = Some 5%nat)
  /\ (depth <$> Test (walk_state stack_nested 3) = Some 5%nat
      /\ depth <$> Test (BuildCallerStack stack_nested) = Some 6%nat)
  /\ (depth <$> Tested (walk_state stack_nested 3) = Some 4%nat
      /\ depth <$> Tested (BuildCallerStack stack_nested) = Some 5%nat).
Proof. vm_compute. repeat split. Qed.

Lemma walk_frames_split_depths (stk : goroutine) (pre post : list FuncInfoRef)
  (f : FuncInfoRef) :
  walk_frames stk = (pre ++ f :: post)%list ->
  Forall (fun g => depth g <> depth f) post.
Proof.
  intros H. apply Forall_forall. intros g Hg.
  apply list_elem_of_lookup in Hg as [j Hj].
  assert (walk_frames stk !! length pre = Some f) as Hf
    by (rewrite H; apply list_lookup_middle; reflexivity).
  assert (walk_frames stk !! (length pre + S j)%nat = Some g) as Hg.
  { rewrite H, lookup_app_r by lia.
    replace (length pre + S j - length pre)%nat with (S j) by lia. exact Hj. }
  apply walk_frames_depth in Hf, Hg. lia.
Qed.

Lemma walk_frames_resolved (stk : goroutine) (pre post : list FuncInfoRef)
  (f : FuncInfoRef) :
  walk_frames stk = (pre ++ f :: post)%list ->
  exists thisRef, CallerFuncInfo stk 1 = Some thisRef.
Proof.
  unfold walk_frames. destruct (CallerFuncInfo stk 1) as [t|];
    [now exists t | now destruct pre].
Qed.

(** [Caller] keeps the frame it was first set to. *)
Lemma Caller_kept (stk : goroutine) (k k' : nat) (p : FuncInfoRef) :
  (k <= k')%nat ->
  Caller (walk_state stk k) = Some p ->
  Caller (walk_state stk k') = Some p.
Proof.
  intros Hk. unfold walk_state.
  destruct (CallerFuncInfo stk 1) as [thisRef|]; [|discriminate].
  intros H.
  rewrite <- (take_drop k (take k' (walk_frames stk))), fold_left_app.
  apply run_Caller_set.
  rewrite take_take. replace (k `min` k')%nat with k by lia. exact H.
Qed.

(** [Mocked] is the last mock frame; [Mocker] the frame after it. *)
Lemma Mocked_last_mock (stk : goroutine) (pre post : list FuncInfoRef)
  (f : FuncInfoRef) :
  Stack (BuildCallerStack stk) = (pre ++ f :: post)%list ->
  IsMock (info f) = true ->
  Forall (fun g => IsMock (info g) = false) post ->
  Mocked (BuildCallerStack stk) = Some f
  /\ forall g post', post = g :: post' -> Mocker (BuildCallerStack stk) = Some g.
Proof.
  intros Hst Hf Hpost. rewrite Stack_walk_frames in Hst.
  destruct (walk_frames_resolved _ _ _ _ Hst) as [thisRef H].
  pose proof (walk_frames_split_depths _ _ _ _ Hst) as Hdepth.
  rewrite (BuildCallerStack_run _ _ H), Hst, fold_left_app, run_cons.
  split.
  - rewrite run_Mocked_keep by assumption. now rewrite visit_Mocked, Hf.
  - intros g post' ->. rewrite run_cons.
    apply Forall_cons in Hpost as [Hg Hpost'].
    apply Forall_cons in Hdepth as [Hdg Hdepth'].
    rewrite (run_Mocker_keep thisRef post' _ f g).
    + rewrite visit_Mocker, visit_last, visit_Mocked, Hf. cbn [same_ptr].
      now rewrite Nat.eqb_refl.
    + now rewrite !visit_Mocked, Hg, Hf.
    + apply visit_last.
    + exact Hdg.
    + apply Forall_and. now split.
Qed.

(** [Test] is the last test frame; [Tested] the frame before it. *)
Lemma Test_last_test (stk : goroutine) (pre post : list FuncInfoRef)
  (f : FuncInfoRef) :
  Stack (BuildCallerStack stk) = (pre ++ f :: post)%list ->
  IsTest (info f) = true ->
  Forall (fun g => IsTest (info g) = false) post ->
  Test (BuildCallerStack stk) = Some f
  /\ Tested (BuildCallerStack stk) = last_frame pre.
Proof.
  intros Hst Hf Hpost. rewrite Stack_walk_frames in Hst.
  destruct (walk_frames_resolved _ _ _ _ Hst) as [thisRef H].
  rewrite (BuildCallerStack_run _ _ H), Hst, fold_left_app, run_cons.
  destruct (run_Test_keep thisRef post
              (visit thisRef (fold_left (visit thisRef) pre
                                (set_this (Some thisRef) emptyStack)) f) Hpost)
    as [-> ->].
  rewrite visit_Test, visit_Tested, Hf, run_last.
  split; [reflexivity | now destruct (last_frame pre)].
Qed.

(** C2, as the code has it. [Caller] alone is first match wins: once
    set, it keeps its frame through the rest of the walk. [Mocked] and
    [Test] are assigned at every matching frame, so at the end of the walk
    [Mocked] is the last walked mock frame and [Test] the last walked test
    frame, [Tested] being the frame walked just before that one; [Mocker]
    is assigned at every frame that follows a mock frame, so when a frame
    follows the last mock frame it is [Mocker]. *)
Theorem field_assignment (stk : goroutine) :
  let s := BuildCallerStack stk in
  (forall (k k' : nat) (p : FuncInfoRef),
      (k <= k')%nat ->
      Caller (walk_state stk k) = Some p ->
      Caller (walk_state stk k') = Some p /\ Caller s = Some p)
  /\ (forall (pre post : list FuncInfoRef) (f : FuncInfoRef),
         Stack s = (pre ++ f :: post)%list ->
         IsMock (info f) = true ->
         Forall (fun g => IsMock (info g) = false) post ->
         Mocked s = Some f
         /\ forall g post', post = g :: post' -> Mocker s = Some g)
  /\ (forall (pre post : list FuncInfoRef) (f : FuncInfoRef),
         Stack s = (pre ++ f :: post)%list ->
         IsTest (info f) = true ->
         Forall (fun g => IsTest (info g) = false) post ->
         Test s = Some f /\ Tested s = last_frame pre).
Proof.
  intros s. split; [|split].
  - intros k k' p Hk H. split; [now apply (Caller_kept stk k)|].
    unfold s.
    rewrite <- (walk_state_all stk (k `max` length (walk_frames stk))) by lia.
    apply (Caller_kept stk k); [lia | exact H].
  - apply Mocked_last_mock.
  - apply Test_last_test.
Qed.

(** In the walk of [stack_nested], [Caller] is set by the first frame and
    stays; the last mock frame is at depth 4, the frame after it at depth
    5; the last test frame is at depth 6, the frame before it at depth
    5. *)
Lemma field_assignment_witness :
  depth <$> Caller (BuildCallerStack stack_nested) = Some 3%nat
  /\ depth <$> Mocked (BuildCallerStack stack_nested) = Some 4%nat
  /\ depth <$> Mocker (BuildCallerStack stack_nested) = Some 5%nat
  /\ depth <$> Test (BuildCallerStack stack_nested) = Some 6%nat
  /\ depth <$> Tested (BuildCallerStack stack_nested) = Some 5%nat.
Proof.
  destruct (field_assignment stack_nested) as (Hc & Hm & Ht).
  pose (fs := Stack (BuildCallerStack stack_nested)).
  destruct (Hc 1%nat 2%nat (mkRef 3 (NewFuncInfo
              (ptr_method "example.com/app" "MockInner" "Get")
              "app/mock_inner.go" 20))) as [_ Hc'];
    [lia | vm_compute; reflexivity |].
  destruct (Hm (take 1 fs) (drop 2 fs)
              (mkRef 4 (NewFuncInfo (ptr_method "example.com/app" "MockOuter" "Get")
                          "app/mock_outer.go" 22)))
    as [Hm1 Hm2];
    [vm_compute; reflexivity | vm_compute; reflexivity
    | forall_frames (fun g => IsMock (info g)) |].
  destruct (Ht (take 3 fs) (drop 4 fs)
              (mkRef 6 (NewFuncInfo "example.com/app.TestAll" "app/app_test.go" 60)))
    as [Ht1 Ht2];
    [vm_compute; reflexivity | vm_compute; reflexivity
    | forall_frames (fun g => IsTest (info g)) |].
  rewrite Hc', Hm1, Ht1, Ht2.
  rewrite (Hm2 (mkRef 5 (NewFuncInfo "example.com/app.TestHelper" "app/app_test.go" 50))
             (drop 3 fs) eq_refl).
  repeat split.
Defined.

(** C10. When no walked frame is a mock frame, [GetMockedCallName] derives
    the key all the same, reads through a nil [*FuncInfo] and ends in a
    panic: it neither returns a key nor fails the test. *)
Theorem GetMockedCallName_no_mock (D : Type) (stk : goroutine) :
  Forall (fun g => IsMock (info g) = false) (Stack (BuildCallerStack stk)) ->
  GetMockedCallName (D := D) stk = Panic NilDereference.
Proof.
  intros Hno. unfold GetMockedCallName, MockedCall.
  rewrite (no_mock_Mocked_nil stk Hno).
  now destruct (Mocker (BuildCallerStack stk)).
Qed.

(** [TestFoo] calls [GetMockedCallName] with no mock on the stack. *)
Lemma GetMockedCallName_no_mock_witness :
  GetMockedCallName (D := unit) (stack_direct "GetMockedCallName" 455)
  = Panic NilDereference.
Proof.
  apply (GetMockedCallName_no_mock unit (stack_direct "GetMockedCallName" 455)).
  forall_frames (fun g => IsMock (info g)).
Defined.

(** The walk of [stack_mocked]: the caller is the closure of the test, the
    mock frame is at depth 6, the frame that called it at depth 7, and the
    test frame at depth 8 with the tested frame just before it. *)
Lemma BuildCallerStack_mocked :
  depth <$> Caller (BuildCallerStack stack_mocked) = Some 3%nat
  /\ depth <$> Mocked (BuildCallerStack stack_mocked) = Some 6%nat
  /\ depth <$> Mocker (BuildCallerStack stack_mocked) = Some 7%nat
  /\ depth <$> Test (BuildCallerStack stack_mocked) = Some 8%nat
  /\ depth <$> Tested (BuildCallerStack stack_mocked) = Some 7%nat
  /\ MockedCall (D := unit) (BuildCallerStack stack_mocked)
     = Return "Service.Send.MockLogger.Info".
Proof. vm_compute. repeat split. Qed.

(** ** The capture store *)

Section CaptureStoreFacts.

Context {rtype data : Type}.
Variable AssignableTo : rtype -> rtype -> bool.

Local Abbreviation store := (BaseTest rtype data).
Local Abbreviation value := (any rtype data).

(** [Capture] when the walk finds no mock frame but does find a caller:
    the values go to the global sequence only, and one line is logged. *)
Lemma Capture_no_mock (x : store) (stk : goroutine) (values : list value)
  (c : FuncInfoRef) :
  Mocked (BuildCallerStack stk) = None ->
  Caller (BuildCallerStack stk) = Some c ->
  Capture x stk values =
  Return (mkBaseTest (captured x ++ values) (capsFrom x)
            (logged x ++ [mkDiag "NO MOCK FOUND FOR CAPTURE from %s"
                            [ArgString (LogString (info c))]])).
Proof. intros Hm Hc. unfold Capture. rewrite Hm, Hc. reflexivity. Qed.

(** [Capture] when the walk finds a mock frame: the values go to the
    bucket of the key and to the global sequence. *)
Lemma Capture_mocked (x : store) (stk : goroutine) (values : list value)
  (mocked mocker : FuncInfoRef) :
  Mocked (BuildCallerStack stk) = Some mocked ->
  Mocker (BuildCallerStack stk) = Some mocker ->
  let key := Join [Object (info mocker); Function (info mocker);
                   Object (info mocked); Function (info mocked)] "." in
  Capture x stk values =
  Return (mkBaseTest (captured x ++ values)
            (<[key := (default [] (capsFrom x !! key) ++ values)%list]> (capsFrom x))
            (logged x)).
Proof.
  intros Hm Hr key. unfold Capture, MockedCall. rewrite Hm, Hr.
  cbn [same_ptr mbind outcome_bind]. fold key.
  now destruct (capsFrom x !! key).
Qed.

Lemma int_wrap_small (z : Z) : - 2 ^ 63 <= z < 2 ^ 63 -> int_wrap z = z.
Proof. intros H. unfold int_wrap. rewrite Z.mod_small; lia. Qed.

(** C8 fails at a negative index: the check [len >= index+1] passes and
    [x.captured[index]] panics, where the claim has the test fail with a
    diagnostic. *)
Theorem Captured_negative_index_panics (x : store) (index : Z)
  (expectTypeOf : value) :
  captured x <> [] ->
  - 2 ^ 63 <= index < 0 ->
  Captured AssignableTo x index expectTypeOf =
  Panic (IndexOutOfRange index (Z.of_nat (length (captured x)))).
Proof.
  intros Hne Hi. unfold Captured, index_captured, int_add.
  rewrite int_wrap_small by lia.
  destruct (captured x) as [|v l] eqn:E; [contradiction|].
  replace (Z.of_nat (length (v :: l)) =? 0) with false
    by (symmetry; apply Z.eqb_neq; simpl length; lia).
  replace (index + 1 <=? Z.of_nat (length (v :: l))) with true
    by (symmetry; apply Z.leb_le; lia).
  replace (0 <=? index) with false by (symmetry; apply Z.leb_gt; lia).
  reflexivity.
Qed.

(** What [for ... := range x.capsFrom] visits when [order] lists the keys
    of the map once each: the buckets of the map. *)
Lemma range_values_Permutation (x : store) (order : list string) :
  order ≡ₚ (map_to_list (capsFrom x)).*1 ->
  range_values x order ≡ₚ (map_to_list (capsFrom x)).*2.
Proof.
  intros Ho. unfold range_values. rewrite Ho.
  assert (forall l : list (string * list value),
             (forall kv, kv ∈ l -> capsFrom x !! kv.1 = Some kv.2) ->
             omap (fun key => capsFrom x !! key) l.*1 = l.*2) as Haux.
  { induction l as [|kv l IH]; intros Hl; simpl; [reflexivity|].
    rewrite (Hl kv) by left. f_equal. apply IH.
    intros kv' Hkv'. apply Hl. now right. }
  rewrite Haux; [reflexivity|].
  intros kv Hkv. now apply elem_of_map_to_list'.
Qed.

Lemma capturedKeys_Permutation (x : store) (order : list string) :
  order ≡ₚ (map_to_list (capsFrom x)).*1 ->
  capturedKeys x order ≡ₚ (map_to_list (capsFrom x)).*1.
Proof.
  intros Ho. unfold capturedKeys. rewrite Ho.
  assert (forall l : list (string * list value),
             (forall kv, kv ∈ l -> capsFrom x !! kv.1 = Some kv.2) ->
             omap (fun key => (fun _ => key) <$> capsFrom x !! key) l.*1 = l.*1)
    as Haux.
  { induction l as [|kv l IH]; intros Hl; simpl; [reflexivity|].
    rewrite (Hl kv) by left. simpl. f_equal. apply IH.
    intros kv' Hkv'. apply Hl. now right. }
  rewrite Haux; [reflexivity|].
  intros kv Hkv. now apply elem_of_map_to_list'.
Qed.

Lemma elem_of_capturedOfType (expectTypeOf v : value) (caps : list value) :
  v ∈ capturedOfType AssignableTo expectTypeOf caps <->
  v ∈ caps /\ Match AssignableTo expectTypeOf v = Some true.
Proof.
  unfold capturedOfType.
  rewrite list_elem_of_In, filter_In, <- list_elem_of_In.
  destruct (Match AssignableTo expectTypeOf v) as [[]|]; intuition congruence.
Qed.

Lemma elem_of_matching (x : store) (expectTypeOf v : value) :
  v ∈ matching AssignableTo x expectTypeOf <->
  exists key bucket,
    capsFrom x !! key = Some bucket /\ v ∈ bucket
    /\ Match AssignableTo expectTypeOf v = Some true.
Proof.
  unfold matching. rewrite list_elem_of_In, in_flat_map. split.
  - intros (bucket & Hb & Hv).
    apply list_elem_of_In, list_elem_of_fmap in Hb as ([key b] & -> & Hkv).
    apply elem_of_map_to_list in Hkv.
    apply list_elem_of_In, elem_of_capturedOfType in Hv as [Hv Hm].
    now exists key, b.
  - intros (key & bucket & Hk & Hv & Hm). exists bucket. split.
    + apply list_elem_of_In, list_elem_of_fmap. exists (key, bucket).
      split; [reflexivity | now apply elem_of_map_to_list].
    + apply list_elem_of_In, elem_of_capturedOfType. now split.
Qed.

(** [CapturedOfType] where the keys are ranged over in [order]: it returns
    the matching values of all buckets when there are any; when there are
    none it calls [Fatalf] if the walk of [GetCallerInfo] found a caller,
    and panics if it found none. *)
Lemma CapturedOfType_cases (x : store) (order : list string) (stk : goroutine)
  (expectTypeOf : value) :
  order ≡ₚ (map_to_list (capsFrom x)).*1 ->
  match CapturedOfType AssignableTo x order stk expectTypeOf with
  | Return caps => caps <> [] /\ caps ≡ₚ matching AssignableTo x expectTypeOf
  | Fatalf d =>
      matching AssignableTo x expectTypeOf = []
      /\ exists c, GetCallerInfo stk = Some c
           /\ d = mkDiag "There were no captured parameters of type %T for %s"
                   [ArgType (TypeOf expectTypeOf);
                    ArgString (LogString (info c))]
  | Panic p =>
      matching AssignableTo x expectTypeOf = [] /\ GetCallerInfo stk = None
      /\ p = NilDereference
  end.
Proof.
  intros Ho. unfold CapturedOfType.
  set (caps := concat _).
  assert (caps ≡ₚ matching AssignableTo x expectTypeOf) as Hp.
  { unfold caps, matching. rewrite <- flat_map_concat_map.
    apply Permutation_flat_map. now apply range_values_Permutation. }
  destruct caps as [|v caps]; simpl.
  - apply Permutation_nil in Hp.
    destruct (GetCallerInfo stk) as [c|]; simpl.
    + split; [assumption | now exists c].
    + now repeat split.
  - split; [discriminate | assumption].
Qed.

(** [CapturedFrom]. *)
Lemma CapturedFrom_found (x : store) (order : list string) (stk : goroutine)
  (mockCall : string) (caps : list value) :
  capsFrom x !! mockCall = Some caps ->
  CapturedFrom x order stk mockCall = Return caps.
Proof.
  intros H. unfold CapturedFrom.
  rewrite bool_decide_eq_false_2, H; [reflexivity|].
  intros He. rewrite He, lookup_empty in H. discriminate H.
Qed.

Lemma CapturedFrom_empty (order : list string) (stk : goroutine)
  (mockCall : string) (x : store) :
  capsFrom x = ∅ ->
  CapturedFrom x order stk mockCall =
  Fatalf (mkDiag "There were no captured parameter values!" []).
Proof. intros H. unfold CapturedFrom. now rewrite bool_decide_eq_true_2. Qed.

(** C9 fails wherever the key has a bucket of which no value matches: the
    values the diagnostic lists are gathered from the matching values, of
    which there are none, so the list is empty whatever the bucket
    holds. *)
Theorem CapturedOfTypeFromCall_lists_nothing (x : store) (order : list string)
  (stk_from stk : goroutine) (expectTypeOf : value) (mockCall : string)
  (bucket : list value) (c : FuncInfoRef) :
  capsFrom x !! mockCall = Some bucket ->
  capturedOfType AssignableTo expectTypeOf bucket = [] ->
  GetCallerInfo stk = Some c ->
  CapturedOfTypeFromCall AssignableTo x order stk_from stk expectTypeOf mockCall =
  Fatalf (mkDiag "at %s there were no captures of type %T from mock call '%s'!  keys %v  values %v"
            [ArgString (LogString (info c)); ArgType (TypeOf expectTypeOf);
             ArgString mockCall; ArgStrings (capturedKeys x order);
             ArgCapTypes []]).
Proof.
  intros Hb Hm Hc. unfold CapturedOfTypeFromCall.
  rewrite (CapturedFrom_found _ _ _ _ _ Hb). simpl.
  rewrite Hm, Hc. reflexivity.
Qed.

Lemma CapturedOfTypeFromCall_found (x : store) (order : list string)
  (stk_from stk : goroutine) (expectTypeOf : value) (mockCall : string)
  (bucket : list value) :
  capsFrom x !! mockCall = Some bucket ->
  capturedOfType AssignableTo expectTypeOf bucket <> [] ->
  CapturedOfTypeFromCall AssignableTo x order stk_from stk expectTypeOf mockCall =
  Return (capturedOfType AssignableTo expectTypeOf bucket).
Proof.
  intros Hb Hm. unfold CapturedOfTypeFromCall.
  rewrite (CapturedFrom_found _ _ _ _ _ Hb). simpl.
  now destruct (capturedOfType AssignableTo expectTypeOf bucket).
Qed.

(** [Captured] at an index that is not negative: it returns the value at
    the index when the sequence is not empty, the index is in range and
    the value matches; otherwise it calls [Fatalf] with the description of
    the check that failed. *)
Lemma Captured_cases (x : store) (index : Z) (expectTypeOf : value) :
  0 <= index < 2 ^ 63 - 1 ->
  let len := Z.of_nat (length (captured x)) in
  match Captured AssignableTo x index expectTypeOf with
  | Return v =>
      index < len /\ captured x !! Z.to_nat index = Some v
      /\ Match AssignableTo expectTypeOf v = Some true
  | Fatalf d =>
      (len = 0
       /\ d = mkDiag "There were no captured parameter values!" [])
      \/ (0 < len <= index
          /\ d = mkDiag "There were only %d captured parameter values - cannot retrieve index %d"
                  [ArgInt len; ArgInt index])
      \/ (exists v, captured x !! Z.to_nat index = Some v
             /\ Match AssignableTo expectTypeOf v <> Some true
             /\ d = mkDiag "Captured parameter type %T at index %d is not assignable to type %T"
                     [ArgType (TypeOf v); ArgInt index;
                      ArgType (TypeOf expectTypeOf)])
  | Panic _ => False
  end.
Proof.
  intros Hi len. unfold Captured, index_captured, int_add. fold len.
  rewrite int_wrap_small by lia.
  destruct (Z.eqb_spec len 0) as [H0|H0]; [now left|].
  destruct (Z.leb_spec (index + 1) len) as [Hle|Hgt]; simpl.
  - replace ((0 <=? index) && (index <? len)) with true
      by (symmetry; apply andb_true_iff; split;
          [apply Z.leb_le | apply Z.ltb_lt]; lia).
    destruct (captured x !! Z.to_nat index) as [v|] eqn:Hv; simpl.
    + destruct (Match AssignableTo expectTypeOf v) as [[]|] eqn:Hm.
      * repeat split; [lia | assumption].
      * right; right. exists v. repeat split; congruence.
      * right; right. exists v. repeat split; congruence.
    + apply lookup_ge_None in Hv. unfold len in Hle. lia.
  - right; left. split; [unfold len in *; lia | reflexivity].
Qed.

End CaptureStoreFacts.

(** A walk that finds a mock frame has set [Mocker] too. *)
Lemma Mocked_set_Mocker_set (stk : goroutine) (mocked : FuncInfoRef) :
  Mocked (BuildCallerStack stk) = Some mocked ->
  exists mocker, Mocker (BuildCallerStack stk) = Some mocker.
Proof.
  destruct (CallerFuncInfo stk 1) as [thisRef|] eqn:H.
  - rewrite (BuildCallerStack_run _ _ H).
    destruct (walk_frames stk) as [|f fs]; [discriminate|]. simpl. intros _.
    assert (forall l s, is_Some (Mocker s) ->
                        is_Some (Mocker (fold_left (visit thisRef) l s))) as Hkeep.
    { induction l as [|g l IH]; intros s Hs; simpl; [exact Hs|].
      apply IH. rewrite visit_Mocker. now destruct (same_ptr _ _). }
    apply Hkeep. rewrite visit_Mocker. simpl. now exists f.
  - rewrite (BuildCallerStack_unresolved _ H). discriminate.
Qed.

(** The examples of the spec, on the stacks above. *)

Lemma Capture_direct_42 :
  Capture New (stack_direct "Capture" 219) [int_ 42] = Return store_direct_42.
Proof. reflexivity. Qed.

Lemma Captured_examples :
  Captured basic_AssignableTo store_direct_42 0 (int_ 0) = Return (int_ 42)
  /\ Captured basic_AssignableTo store_direct_42 0 (string_ EmptyString)
     = Fatalf (mkDiag "Captured parameter type %T at index %d is not assignable to type %T"
                 [ArgType (Some Int); ArgInt 0; ArgType (Some Str)]).
Proof. split; reflexivity. Qed.

(** [Capture("a")] and then [Capture("b")] under one key: the bucket of the
    key holds "a" and "b", in this order. *)
Lemma Capture_twice_CapturedFrom {rtype data : Type}
  (x x1 x2 : BaseTest rtype data) (stk stk' : goroutine)
  (order : list string) (a b : any rtype data) (key : string) :
  MockedCall (D := unit) (BuildCallerStack stk) = Return key ->
  capsFrom x !! key = None ->
  Capture x stk [a] = Return x1 ->
  Capture x1 stk [b] = Return x2 ->
  CapturedFrom x2 order stk' key = Return [a; b].
Proof.
  unfold MockedCall. intros Hk Hx H1 H2.
  destruct (Mocker (BuildCallerStack stk)) as [mocker|] eqn:Hr; [|discriminate].
  destruct (Mocked (BuildCallerStack stk)) as [mocked|] eqn:Hm; [|discriminate].
  assert (Join [Object (info mocker); Function (info mocker);
                Object (info mocked); Function (info mocked)] "." = key) as Hkey
    by (injection Hk as Hk; exact Hk).
  clear Hk.
  pose proof (Capture_mocked x stk [a] _ _ Hm Hr) as E1.
  pose proof (Capture_mocked x1 stk [b] _ _ Hm Hr) as E2.
  cbv zeta in E1, E2. rewrite Hkey in E1, E2.
  rewrite E1 in H1. injection H1 as <-.
  rewrite E2 in H2. injection H2 as <-.
  apply CapturedFrom_found. cbn [capsFrom].
  rewrite lookup_insert_eq, lookup_insert_eq, Hx. reflexivity.
Qed.

(** [Capture] on [stack_mocked] and on [stack_direct], whatever the store
    holds. *)
Lemma Capture_stack_mocked (x : BaseTest basic basic_data)
  (values : list (any basic basic_data)) :
  Capture x stack_mocked values =
  Return (mkBaseTest (captured x ++ values)
            (<[key_mocked := (default [] (capsFrom x !! key_mocked) ++ values)%list]>
               (capsFrom x))
            (logged x)).
Proof.
  pose (mocked := mkRef 6 (NewFuncInfo
                             (ptr_method "example.com/app/mock" "MockLogger" "Info")
                             "app/mock/mockLogger.go" 58)).
  pose (mocker := mkRef 7 (NewFuncInfo
                             (ptr_method "example.com/app" "Service" "Send")
                             "app/service.go" 40)).
  assert (Mocked (BuildCallerStack stack_mocked) = Some mocked) as Hm
    by (vm_compute; reflexivity).
  assert (Mocker (BuildCallerStack stack_mocked) = Some mocker) as Hr
    by (vm_compute; reflexivity).
  assert (Join [Object (info mocker); Function (info mocker);
                Object (info mocked); Function (info mocked)] "." = key_mocked)
    as Hkey by (vm_compute; reflexivity).
  pose proof (Capture_mocked x stack_mocked values _ _ Hm Hr) as E.
  cbv zeta in E. rewrite Hkey in E. exact E.
Qed.

Lemma Capture_stack_direct (x : BaseTest basic basic_data)
  (values : list (any basic basic_data)) :
  Capture x (stack_direct "Capture" 219) values =
  Return (mkBaseTest (captured x ++ values) (capsFrom x)
            (logged x ++ [mkDiag "NO MOCK FOUND FOR CAPTURE from %s"
                            [ArgString "example.com/app.TestFoo at app/app_test.go:12"]])).
Proof.
  rewrite (Capture_no_mock x (stack_direct "Capture" 219) values
             (mkRef 3 (NewFuncInfo "example.com/app.TestFoo" "app/app_test.go" 12)));
    [reflexivity | vm_compute; reflexivity | vm_compute; reflexivity].
Qed.

Lemma Capture_mocked_42 :
  Capture New stack_mocked [int_ 42] = Return store_mocked_42.
Proof.
  rewrite Capture_stack_mocked.
  unfold store_mocked_42, New. cbn [captured capsFrom logged].
  rewrite lookup_empty, insert_empty. reflexivity.
Qed.

(** [Capture(42)] and then [Captured(-1, 0)]. *)
Lemma Captured_negative_index_panics_witness :
  Captured basic_AssignableTo store_direct_42 (-1) (int_ 0)
  = Panic (IndexOutOfRange (-1) 1).
Proof.
  apply (Captured_negative_index_panics basic_AssignableTo store_direct_42
           (-1) (int_ 0)).
  - discriminate.
  - lia.
Defined.

(** After [Capture(42)] under [key_mocked], asking that key for a string:
    the bucket holds the [int] 42, and the diagnostic lists no value. *)
Lemma CapturedOfTypeFromCall_lists_nothing_witness :
  CapturedOfTypeFromCall basic_AssignableTo store_mocked_42 [key_mocked]
    (stack_lookup "CapturedFrom" 289)
    (stack_lookup "CapturedOfTypeFromCall" 292)
    (string_ EmptyString) key_mocked
  = Fatalf (mkDiag "at %s there were no captures of type %T from mock call '%s'!  keys %v  values %v"
              [ArgString "example.com/app.TestFoo at app/app_test.go:12";
               ArgType (Some Str); ArgString key_mocked;
               ArgStrings (capturedKeys store_mocked_42 [key_mocked]);
               ArgCapTypes []]).
Proof.
  apply (CapturedOfTypeFromCall_lists_nothing basic_AssignableTo store_mocked_42
           [key_mocked] (stack_lookup "CapturedFrom" 289)
           (stack_lookup "CapturedOfTypeFromCall" 292)
           (string_ EmptyString) key_mocked [int_ 42]
           (mkRef 4 (NewFuncInfo "example.com/app.TestFoo" "app/app_test.go" 12))).
  - apply lookup_singleton_eq.
  - reflexivity.
  - vm_compute; reflexivity.
Defined.

(** * Further properties *)

(** ** The frames a walk records *)

Section WalkedFrames.

Lemma walked_lookup (frames : list RawFrame) (i k : nat) (f : FuncInfoRef) :
  walked frames i !! k = Some f ->
  exists fr, frames !! k = Some fr /\ resolve (i + k) fr = Some f.
Proof.
  revert i k; induction frames as [|fr frames IH]; intros i k; simpl;
    [discriminate|].
  destruct (resolve i fr) as [g|] eqn:Hr; [|discriminate].
  destruct k as [|k]; simpl.
  - intros [= <-]. exists fr. now rewrite Nat.add_0_r.
  - intros H. apply IH in H as (fr' & Hfr & Hres). exists fr'.
    split; [assumption|]. now replace (i + S k)%nat with (S i + k)%nat by lia.
Qed.

Lemma walked_stops (frames : list RawFrame) (i k : nat) :
  (forall fr, frames !! k = Some fr -> resolve (i + k) fr = None) ->
  (length (walked frames i) <= k)%nat.
Proof.
  revert i k; induction frames as [|fr frames IH]; intros i k H; simpl;
    [lia|].
  destruct (resolve i fr) as [g|] eqn:Hr; simpl; [|lia].
  destruct k as [|k].
  - specialize (H fr eq_refl). rewrite Nat.add_0_r in H. congruence.
  - apply le_n_S, IH. intros fr' Hfr'.
    replace (S i + k)%nat with (i + S k)%nat by lia. now apply H.
Qed.

Lemma walked_reaches (frames : list RawFrame) (i k : nat) :
  (forall j, (j <= k)%nat ->
     exists fr f, frames !! j = Some fr /\ resolve (i + j) fr = Some f) ->
  exists fr, frames !! k = Some fr /\ walked frames i !! k = resolve (i + k) fr.
Proof.
  revert i k; induction frames as [|fr frames IH]; intros i k H.
  - destruct (H 0%nat) as (fr & f & Hfr & _); [lia | discriminate].
  - simpl. destruct (H 0%nat) as (fr0 & f0 & Hfr0 & Hres0); [lia|].
    injection Hfr0 as <-. rewrite Nat.add_0_r in Hres0. rewrite Hres0.
    destruct k as [|k].
    + exists fr. now rewrite Nat.add_0_r, Hres0.
    + destruct (IH (S i) k) as (fr' & Hfr' & Hw).
      { intros j Hj. destruct (H (S j)) as (fr' & f' & Hfr' & Hres'); [lia|].
        exists fr', f'. split; [assumption|].
        now replace (S i + j)%nat with (i + S j)%nat by lia. }
      exists fr'. split; [assumption|]. simpl.
      now replace (i + S k)%nat with (S i + k)%nat by lia.
Qed.

Lemma CallerFuncInfo_drop (stk : goroutine) (k : nat) :
  CallerFuncInfo stk (3 + k) =
  match drop 3 stk !! k with
  | Some fr => resolve (3 + k) fr
  | None => None
  end.
Proof. unfold CallerFuncInfo. now rewrite lookup_drop. Qed.

End WalkedFrames.

(** X1. The frame sequence of a walk is the run of frames that
    [CallerFuncInfo] resolves from depth 3 outward: its entry [k] is what
    [CallerFuncInfo(3+k)] returns, it ends before the first depth that
    does not resolve, and it reaches every depth up to which all depths
    resolve, provided the frame at depth 1 resolves. *)
Theorem Stack_resolved_prefix (stk : goroutine) :
  let s := BuildCallerStack stk in
  (forall (k : nat) (f : FuncInfoRef),
      Stack s !! k = Some f ->
      CallerFuncInfo stk (3 + k) = Some f /\ is_Some (CallerFuncInfo stk 1))
  /\ (forall k : nat,
         CallerFuncInfo stk (3 + k) = None -> (length (Stack s) <= k)%nat)
  /\ (forall k : nat,
         is_Some (CallerFuncInfo stk 1) ->
         (forall j, (j <= k)%nat -> is_Some (CallerFuncInfo stk (3 + j))) ->
         is_Some (Stack s !! k)).
Proof.
  intros s. unfold s. rewrite Stack_walk_frames. unfold walk_frames.
  split; [|split].
  - intros k f H. destruct (CallerFuncInfo stk 1) as [thisRef|]; [|discriminate].
    split; [|now eexists].
    apply walked_lookup in H as (fr & Hfr & Hres).
    now rewrite CallerFuncInfo_drop, Hfr.
  - intros k H. destruct (CallerFuncInfo stk 1) as [thisRef|]; [|simpl; lia].
    apply walked_stops. intros fr Hfr.
    now rewrite CallerFuncInfo_drop, Hfr in H.
  - intros k [thisRef ->] H.
    destruct (walked_reaches (drop 3 stk) 3 k) as (fr & Hfr & Hw).
    { intros j Hj. destruct (H j Hj) as [f Hf].
      rewrite CallerFuncInfo_drop in Hf.
      destruct (drop 3 stk !! j) as [fr|]; [|discriminate]. now exists fr, f. }
    rewrite Hw. destruct (H k (Nat.le_refl k)) as [f Hf].
    rewrite CallerFuncInfo_drop, Hfr in Hf. now exists f.
Qed.

(** The walk of [stack_mocked], a stack of eleven frames: the entry 3 of
    the frame sequence is the mock frame, which [CallerFuncInfo(6)]
    returns; depth 11 is past the outermost frame, so the sequence has at
    most eight entries; and as the depths 3 to 10 all resolve, it has an
    entry 7, [runtime.goexit]. *)
Lemma Stack_resolved_prefix_witness :
  let s := BuildCallerStack stack_mocked in
  (CallerFuncInfo stack_mocked (3 + 3)
   = Some (mkRef 6 (NewFuncInfo
                      (ptr_method "example.com/app/mock" "MockLogger" "Info")
                      "app/mock/mockLogger.go" 58))
   /\ is_Some (CallerFuncInfo stack_mocked 1))
  /\ (length (Stack s) <= 8)%nat
  /\ is_Some (Stack s !! 7%nat).
Proof.
  destruct (Stack_resolved_prefix stack_mocked) as (H1 & H2 & H3).
  split; [|split].
  - apply (H1 3%nat). vm_compute; reflexivity.
  - apply (H2 8%nat). vm_compute; reflexivity.
  - apply (H3 7%nat).
    + apply is_Some_alt. vm_compute. exact I.
    + intros j Hj. apply is_Some_alt.
      do 8 (destruct j as [|j]; [vm_compute; exact I|]). lia.
Defined.

(** ** What the classification holds *)

Section Classification.

Variable thisRef : FuncInfoRef.

Local Abbreviation run := (fold_left (visit thisRef)).

Lemma visit_refs_in_Stack (s : FuncInfoStack) (f : FuncInfoRef) :
  refs_in_Stack s -> refs_in_Stack (visit thisRef s f).
Proof.
  intros Hs p Hp. rewrite visit_Stack. apply elem_of_app.
  assert (forall q, In (Some q) [Caller s; Test s; Tested s; Mocked s;
                                 Mocker s; last s] -> q ∈ Stack s) as Hold
    by exact Hs.
  rewrite visit_Caller, visit_Test, visit_Tested, visit_Mocked, visit_Mocker,
    visit_last in Hp.
  cbn [In] in Hp, Hold.
  assert (p = f \/ p ∈ Stack s) as [->|H];
    [|right; now apply list_elem_of_singleton | now left].
  destruct Hp as [Hp|[Hp|[Hp|[Hp|[Hp|[Hp|[]]]]]]].
  - destruct (Caller s) as [c|] eqn:Hc.
    + injection Hp as ->. right. apply Hold. tauto.
    + destruct (negb _); [injection Hp as ->; now left | discriminate].
  - destruct (IsTest (info f)); [injection Hp as ->; now left|].
    right. apply Hold. tauto.
  - destruct (IsTest (info f)); right; apply Hold; tauto.
  - destruct (IsMock (info f)); [injection Hp as ->; now left|].
    right. apply Hold. tauto.
  - destruct (same_ptr _ _); [injection Hp as ->; now left|].
    right. apply Hold. tauto.
  - injection Hp as ->. now left.
Qed.

Lemma run_refs_in_Stack (l : list FuncInfoRef) (s : FuncInfoStack) :
  refs_in_Stack s -> refs_in_Stack (run l s).
Proof.
  revert s; induction l as [|f l IH]; intros s Hs; simpl; [exact Hs|].
  apply IH. now apply visit_refs_in_Stack.
Qed.

(** A field that holds a frame after a run held it before, or took it from
    a frame of the run that satisfies the predicate of the field. *)
Lemma run_Mocked_from (l : list FuncInfoRef) (s : FuncInfoStack) (f : FuncInfoRef) :
  Mocked (run l s) = Some f ->
  Mocked s = Some f \/ (f ∈ l /\ IsMock (info f) = true).
Proof.
  revert s; induction l as [|g l IH]; intros s H; simpl in H; [now left|].
  apply IH in H as [H|[Hin Hm]].
  - rewrite visit_Mocked in H. destruct (IsMock (info g)) eqn:Hg.
    + injection H as ->. right. split; [left | assumption].
    + now left.
  - right. split; [now right | assumption].
Qed.

Lemma run_Test_from (l : list FuncInfoRef) (s : FuncInfoStack) (f : FuncInfoRef) :
  Test (run l s) = Some f ->
  Test s = Some f \/ (f ∈ l /\ IsTest (info f) = true).
Proof.
  revert s; induction l as [|g l IH]; intros s H; simpl in H; [now left|].
  apply IH in H as [H|[Hin Hm]].
  - rewrite visit_Test in H. destruct (IsTest (info g)) eqn:Hg.
    + injection H as ->. right. split; [left | assumption].
    + now left.
  - right. split; [now right | assumption].
Qed.

Lemma run_Mocked_some (l : list FuncInfoRef) (s : FuncInfoStack) :
  is_Some (Mocked s) \/ Exists (fun g => IsMock (info g) = true) l ->
  is_Some (Mocked (run l s)).
Proof.
  revert s; induction l as [|g l IH]; intros s H; simpl.
  - destruct H as [H|H]; [exact H | inversion H].
  - apply IH. rewrite visit_Mocked.
    destruct (IsMock (info g)) eqn:Hg; [left; now eexists|].
    destruct H as [H|H]; [now left|].
    inversion H as [? ? Hg'|? ? Hl]; subst; [congruence | now right].
Qed.

Lemma run_Test_some (l : list FuncInfoRef) (s : FuncInfoStack) :
  is_Some (Test s) \/ Exists (fun g => IsTest (info g) = true) l ->
  is_Some (Test (run l s)).
Proof.
  revert s; induction l as [|g l IH]; intros s H; simpl.
  - destruct H as [H|H]; [exact H | inversion H].
  - apply IH. rewrite visit_Test.
    destruct (IsTest (info g)) eqn:Hg; [left; now eexists|].
    destruct H as [H|H]; [now left|].
    inversion H as [? ? Hg'|? ? Hl]; subst; [congruence | now right].
Qed.

End Classification.

Lemma refs_in_Stack_empty (p : option FuncInfoRef) :
  refs_in_Stack (set_this p emptyStack).
Proof.
  intros q Hq. simpl in Hq.
  repeat (destruct Hq as [Hq|Hq]; [discriminate|]). contradiction.
Qed.

(** X2. Every frame a walk singles out (the caller, the test and tested
    frames, the mocked and mocker frames) is one of the frames of the
    frame sequence of that walk. *)
Theorem classified_frames_walked (stk : goroutine) :
  refs_in_Stack (BuildCallerStack stk).
Proof.
  destruct (CallerFuncInfo stk 1) as [thisRef|] eqn:H.
  - rewrite (BuildCallerStack_run _ _ H).
    apply run_refs_in_Stack, refs_in_Stack_empty.
  - rewrite (BuildCallerStack_unresolved _ H).
    apply (refs_in_Stack_empty None).
Qed.

Lemma classified_frames_satisfy_aux (stk : goroutine) :
  let s := BuildCallerStack stk in
  (forall f, Mocked s = Some f -> IsMock (info f) = true)
  /\ (is_Some (Mocked s) <-> Exists (fun g => IsMock (info g) = true) (Stack s)).
Proof.
  intros s. unfold s. rewrite Stack_walk_frames.
  destruct (CallerFuncInfo stk 1) as [thisRef|] eqn:H.
  - rewrite (BuildCallerStack_run _ _ H).
    set (s0 := set_this (Some thisRef) emptyStack).
    assert (forall f, Mocked (fold_left (visit thisRef) (walk_frames stk) s0) = Some f ->
                      f ∈ walk_frames stk /\ IsMock (info f) = true) as Hm.
    { intros f Hf. apply run_Mocked_from in Hf as [Hf|Hf];
        [discriminate | assumption]. }
    split; [intros f Hf; now apply Hm|]. split.
    + intros [f Hf]. apply Exists_exists. exists f. now apply Hm.
    + intros Hex. apply run_Mocked_some. now right.
  - rewrite (BuildCallerStack_unresolved _ H). unfold walk_frames. rewrite H.
    simpl. split; [discriminate|].
    split; [intros [f Hf]; discriminate | intros Hex; inversion Hex].
Qed.

(** X3. [Mocked], when set, holds a mock frame and [Test], when set, a test
    frame; [Mocked] is set exactly when some walked frame is a mock frame
    and [Test] exactly when some walked frame is a test frame. *)
Theorem classified_frames_satisfy (stk : goroutine) :
  let s := BuildCallerStack stk in
  (forall f, Mocked s = Some f -> IsMock (info f) = true)
  /\ (forall f, Test s = Some f -> IsTest (info f) = true)
  /\ (is_Some (Mocked s) <-> Exists (fun g => IsMock (info g) = true) (Stack s))
  /\ (is_Some (Test s) <-> Exists (fun g => IsTest (info g) = true) (Stack s)).
Proof.
  intros s. unfold s. rewrite Stack_walk_frames.
  destruct (CallerFuncInfo stk 1) as [thisRef|] eqn:H.
  - rewrite (BuildCallerStack_run _ _ H).
    set (s0 := set_this (Some thisRef) emptyStack).
    assert (forall f, Mocked (fold_left (visit thisRef) (walk_frames stk) s0) = Some f ->
                      f ∈ walk_frames stk /\ IsMock (info f) = true) as Hm.
    { intros f Hf. apply run_Mocked_from in Hf as [Hf|Hf];
        [discriminate | assumption]. }
    assert (forall f, Test (fold_left (visit thisRef) (walk_frames stk) s0) = Some f ->
                      f ∈ walk_frames stk /\ IsTest (info f) = true) as Ht.
    { intros f Hf. apply run_Test_from in Hf as [Hf|Hf];
        [discriminate | assumption]. }
    split; [intros f Hf; now apply Hm|].
    split; [intros f Hf; now apply Ht|].
    split; split.
    + intros [f Hf]. apply Exists_exists. exists f. now apply Hm.
    + intros Hex. apply run_Mocked_some. now right.
    + intros [f Hf]. apply Exists_exists. exists f. now apply Ht.
    + intros Hex. apply run_Test_some. now right.
  - rewrite (BuildCallerStack_unresolved _ H). unfold walk_frames. rewrite H.
    simpl. repeat split; try discriminate;
      try (intros [f Hf]; discriminate); intros Hex; inversion Hex.
Qed.

Lemma split_at_first {A : Type} (P : A -> Prop) `{!forall x, Decision (P x)}
  (l : list A) :
  Forall (fun x => ~ P x) l
  \/ exists pre f post, l = (pre ++ f :: post)%list
                        /\ Forall (fun x => ~ P x) pre /\ P f.
Proof.
  induction l as [|x l IH]; [left; apply Forall_nil_2|].
  destruct (decide (P x)) as [Hx|Hx].
  - right. exists [], x, l. repeat split; [apply Forall_nil_2 | assumption].
  - destruct IH as [IH|(pre & f & post & -> & Hpre & Hf)].
    + left. now apply Forall_cons_2.
    + right. exists (x :: pre), f, post.
      repeat split; [now apply Forall_cons_2 | assumption].
Qed.

#[local] Instance outside_dec (thisRef g : FuncInfoRef) :
  Decision (outside thisRef g).
Proof. unfold outside. apply _. Defined.

Lemma not_outside (thisRef : FuncInfoRef) (l : list FuncInfoRef) :
  Forall (fun g => ~ outside thisRef g) l ->
  Forall (fun g => Package (info g) = Package (info thisRef)) l.
Proof.
  intros H. eapply Forall_impl; [exact H|].
  intros g Hg. unfold outside in Hg.
  destruct (decide (Package (info g) = Package (info thisRef))); tauto.
Qed.

(** X4. [GetCallerInfo] returns the first walked frame whose package is
    not the package of the walker itself, and nil when every walked frame
    lies in that package. *)
Theorem GetCallerInfo_first_outside (stk : goroutine) (thisRef : FuncInfoRef) :
  CallerFuncInfo stk 1 = Some thisRef ->
  match GetCallerInfo stk with
  | Some f =>
      exists pre post,
        Stack (BuildCallerStack stk) = (pre ++ f :: post)%list
        /\ Forall (fun g => ~ outside thisRef g) pre
        /\ outside thisRef f
  | None => Forall (fun g => ~ outside thisRef g) (Stack (BuildCallerStack stk))
  end.
Proof.
  intros H. unfold GetCallerInfo. rewrite Stack_walk_frames.
  rewrite (BuildCallerStack_run _ _ H).
  destruct (split_at_first (outside thisRef) (walk_frames stk))
    as [Hall|(pre & f & post & Heq & Hpre & Hf)].
  - rewrite run_Caller_none; [assumption | reflexivity | now apply not_outside].
  - rewrite Heq, run_Caller_first;
      [|reflexivity | now apply not_outside | exact Hf].
    now exists pre, post.
Qed.

(** A test calls [CapturedOfType]: the caller is the test, the frame of
    [CapturedOfType] itself lying in the package of the walker. *)
Lemma GetCallerInfo_first_outside_witness :
  match GetCallerInfo (stack_lookup "CapturedOfType" 261) with
  | Some f =>
      exists pre post,
        Stack (BuildCallerStack (stack_lookup "CapturedOfType" 261))
        = (pre ++ f :: post)%list
        /\ Forall (fun g => ~ outside
                     (mkRef 1 (NewFuncInfo
                                 (ptr_method "github.com/sbernheim/goonit/core"
                                    "BaseTest" "BuildCallerStack")
                                 "core/type.go" 432)) g) pre
        /\ outside (mkRef 1 (NewFuncInfo
                               (ptr_method "github.com/sbernheim/goonit/core"
                                  "BaseTest" "BuildCallerStack")
                               "core/type.go" 432)) f
  | None => True
  end.
Proof.
  pose proof (GetCallerInfo_first_outside (stack_lookup "CapturedOfType" 261)
                (mkRef 1 (NewFuncInfo
                            (ptr_method "github.com/sbernheim/goonit/core"
                               "BaseTest" "BuildCallerStack")
                            "core/type.go" 432))) as H.
  destruct (GetCallerInfo (stack_lookup "CapturedOfType" 261));
    [apply H; vm_compute; reflexivity | exact I].
Defined.

(** X5. [GetMockedCallName] returns a key exactly when some walked frame
    is a mock frame: the key joins receiver and function of [Mocker] and
    of [Mocked] with dots, [Mocked] being a mock frame. Otherwise it
    panics on the nil frame. It never calls [Fatalf]. *)
Theorem GetMockedCallName_cases (D : Type) (stk : goroutine) :
  let s := BuildCallerStack stk in
  match GetMockedCallName (D := D) stk with
  | Return key =>
      exists mocked mocker,
        Mocked s = Some mocked /\ Mocker s = Some mocker
        /\ IsMock (info mocked) = true
        /\ key = Object (info mocker) +:+ "." +:+ Function (info mocker)
                 +:+ "." +:+ Object (info mocked) +:+ "."
                 +:+ Function (info mocked)
  | Fatalf _ => False
  | Panic p =>
      p = NilDereference
      /\ Forall (fun g => IsMock (info g) = false) (Stack s)
  end.
Proof.
  intros s. unfold GetMockedCallName, MockedCall. fold s.
  destruct (classified_frames_satisfy_aux stk) as (Hsound & Hiff).
  fold s in Hsound, Hiff.
  destruct (Mocked s) as [mocked|] eqn:Hm.
  - destruct (Mocked_set_Mocker_set _ _ Hm) as [mocker Hr]. fold s in Hr.
    rewrite Hr. exists mocked, mocker. repeat split; [now apply Hsound].
  - assert (Forall (fun g => IsMock (info g) = false) (Stack s)) as Hno.
    { apply Forall_forall. intros g Hg.
      destruct (IsMock (info g)) eqn:E; [|reflexivity].
      destruct (proj2 Hiff) as [f Hf]; [|discriminate].
      apply Exists_exists. now exists g. }
    destruct (Mocker s); now split.
Qed.

(** ** Parsed names *)

Section ParsedNames.

Lemma Join_app (l1 l2 : list string) (sep : string) :
  l1 <> [] -> l2 <> [] ->
  Join (l1 ++ l2) sep = Join l1 sep +:+ sep +:+ Join l2 sep.
Proof.
  intros H1 H2. induction l1 as [|e l1 IH]; [contradiction|].
  destruct l1 as [|e' l1].
  - destruct l2 as [|e2 l2]; [contradiction | reflexivity].
  - change (Join ((e :: e' :: l1) ++ l2) sep)
      with (e +:+ sep +:+ Join ((e' :: l1) ++ l2) sep).
    rewrite IH by discriminate.
    change (Join (e :: e' :: l1) sep) with (e +:+ sep +:+ Join (e' :: l1) sep).
    now rewrite !append_assoc.
Qed.

Lemma Split_segment (s : string) (sep : ascii) (seg : string) :
  seg ∈ Split s sep -> Split seg sep = [seg].
Proof.
  revert seg; induction s as [|c s IH]; intros seg; simpl.
  - intros ->%list_elem_of_singleton. reflexivity.
  - destruct (Ascii.eqb c sep) eqn:E.
    + intros [->|H]%elem_of_cons; [reflexivity | now apply IH].
    + pose proof (Split_nonempty s sep) as Hne.
      destruct (Split s sep) as [|h t]; [contradiction|].
      intros [->|H]%elem_of_cons.
      * simpl. rewrite E, (IH h) by left. reflexivity.
      * apply IH. now right.
Qed.

(** The fields of a name with a wrapped segment, and of one without. *)
Lemma NewFuncInfo_method (name file : string) (line : Z) (i : nat)
  (body : string) :
  let segs := Split name dot in
  (2 <= length segs)%nat ->
  segs !! i = Some ("(" +:+ body +:+ ")") ->
  (forall j s, (j < i)%nat -> segs !! j = Some s -> ~ wrapped s) ->
  NewFuncInfo name file line =
  mkFuncInfo name (Join (drop (S i) segs) ".") (strip_star body)
    (Join (take i segs) ".") file line.
Proof.
  intros segs Hge Hi Hfirst. unfold NewFuncInfo, parseName; simpl Name.
  fold segs.
  replace (length segs <? 2)%nat with false by (symmetry; apply Nat.ltb_ge; lia).
  assert (findObjectRef segs = Some i) as ->.
  { apply findObjectRef_from_Some. exists i, ("(" +:+ body +:+ ")").
    repeat split; [assumption | now exists body | assumption]. }
  simpl. replace (i + 1)%nat with (S i) by lia.
  now rewrite (nth_lookup_string _ _ _ Hi), trimObjectRef_wrapped.
Qed.

Lemma NewFuncInfo_plain (name file : string) (line : Z) :
  let segs := Split name dot in
  (forall s, s ∈ segs -> ~ wrapped s) ->
  Object (NewFuncInfo name file line) = EmptyString
  /\ ((2 <= length segs)%nat ->
      exists front final,
        segs = (front ++ [final])%list /\ front <> []
        /\ Function (NewFuncInfo name file line) = final
        /\ Package (NewFuncInfo name file line) = Join front ".").
Proof.
  intros segs Hnone. unfold NewFuncInfo, parseName; simpl Name. fold segs.
  assert (findObjectRef segs = None) as ->
    by now apply findObjectRef_from_None.
  destruct (length segs <? 2)%nat eqn:Hb.
  - split; [reflexivity|]. apply Nat.ltb_lt in Hb. lia.
  - split; [reflexivity|]. intros Hge.
    destruct (decide (segs = [])) as [E|Hne]; [rewrite E in Hge; simpl in Hge; lia|].
    destruct (exists_last Hne) as (front & final & Hsegs).
    exists front, final. split; [exact Hsegs|].
    split; [intros ->; rewrite Hsegs in Hge; simpl in Hge; lia|].
    simpl. rewrite Hsegs, length_app. simpl.
    replace (length front + 1 - 1)%nat with (length front) by lia.
    rewrite app_nth2 by lia. rewrite Nat.sub_diag. simpl.
    now rewrite take_app_length.
Qed.

End ParsedNames.

(** X7. The parts of a parsed name put the name together again. A name of
    two or more segments with no wrapped segment is its namespace, a dot
    and its function name, and the function name holds no dot. A name
    whose first wrapped segment is neither its first nor its last segment
    is its namespace, the receiver in parentheses, with or without a
    star, and its function name, joined by dots. *)
Theorem FuncInfo_reassembles (name file : string) (line : Z) :
  let f := NewFuncInfo name file line in
  let segs := Split name dot in
  ((2 <= length segs)%nat ->
   (forall s, s ∈ segs -> ~ wrapped s) ->
   Package f +:+ "." +:+ Function f = name
   /\ Split (Function f) dot = [Function f])
  /\ (forall (i : nat) (body : string),
         (0 < i)%nat -> (S i < length segs)%nat ->
         segs !! i = Some ("(" +:+ body +:+ ")") ->
         (forall j s, (j < i)%nat -> segs !! j = Some s -> ~ wrapped s) ->
         exists star,
           (star = EmptyString \/ star = "*")
           /\ Package f +:+ "." +:+ "(" +:+ star +:+ Object f +:+ ")"
              +:+ "." +:+ Function f = name).
Proof.
  intros f segs. unfold f, segs. clear f segs. split.
  - intros Hge Hnone.
    destruct (NewFuncInfo_plain name file line Hnone) as [_ H].
    destruct (H Hge) as (front & final & Hsegs & Hfront & Hfn & Hpkg).
    rewrite Hfn, Hpkg. split.
    + transitivity (Join (Split name dot) "."); [|apply Join_Split].
      rewrite Hsegs. now rewrite Join_app by (assumption || discriminate).
    + apply Split_segment with (s := name). rewrite Hsegs.
      apply elem_of_app. right. now left.
  - intros i body Hi Hlt Hseg Hfirst.
    rewrite (NewFuncInfo_method name file line i body) by (assumption || lia).
    cbn [Package Object Function].
    exists (match body with String "*" _ => "*" | _ => EmptyString end).
    split; [destruct body as [|[[] [] [] [] [] [] [] []] ?]; auto|].
    transitivity (Join (Split name dot) "."); [|apply Join_Split].
    rewrite <- (take_drop_middle (Split name dot) i _ Hseg) at 3.
    assert (take i (Split name dot) <> []) as Ht.
    { intros E. apply (f_equal length) in E. rewrite length_take in E.
      simpl in E. lia. }
    assert (drop (S i) (Split name dot) <> []) as Hd.
    { intros E. apply (f_equal length) in E. rewrite length_drop in E.
      simpl in E. lia. }
    rewrite Join_app by (assumption || discriminate).
    change (("(" +:+ body +:+ ")") :: drop (S i) (Split name dot))
      with ([("(" +:+ body +:+ ")")] ++ drop (S i) (Split name dot))%list.
    rewrite Join_app by (assumption || discriminate).
    cbn [Join].
    f_equal. f_equal. rewrite !append_assoc. f_equal.
    destruct body as [|[[] [] [] [] [] [] [] []] ?]; reflexivity.
Qed.

(** X8. A frame whose name has no wrapped segment has no receiver and is
    never a mock frame, whatever its function is called. *)
Theorem plain_function_never_mock (name file : string) (line : Z) :
  (forall s, s ∈ Split name dot -> ~ wrapped s) ->
  Object (NewFuncInfo name file line) = EmptyString
  /\ IsMock (NewFuncInfo name file line) = false.
Proof.
  intros Hnone.
  destruct (NewFuncInfo_plain name file line Hnone) as [Hobj _].
  split; [exact Hobj|]. unfold IsMock. now rewrite Hobj.
Qed.

(** The function [MockStore] of a package is no mock frame. *)
Lemma plain_function_never_mock_witness :
  Object (NewFuncInfo "example.com/app.MockStore" "app/store.go" 7) = EmptyString
  /\ IsMock (NewFuncInfo "example.com/app.MockStore" "app/store.go" 7) = false.
Proof.
  apply (plain_function_never_mock "example.com/app.MockStore" "app/store.go" 7).
  intros s Hs. apply isObjectRef_false_iff.
  vm_compute in Hs.
  repeat (apply elem_of_cons in Hs as [->|Hs]; [reflexivity|]).
  inversion Hs.
Defined.

Lemma DecodeRune_ascii (c : ascii) (rest : string) :
  Utf8.byte c < 0x80 ->
  Utf8.DecodeRuneInString (String c rest) = (Utf8.byte c, 1).
Proof.
  destruct c as [b0 b1 b2 b3 b4 b5 b6 b7].
  destruct b7; [intros H; exfalso; revert H;
                destruct b0, b1, b2, b3, b4, b5, b6; vm_compute; congruence|].
  intros _. destruct b0, b1, b2, b3, b4, b5, b6; reflexivity.
Qed.

Lemma IsLower_ascii (c : ascii) :
  Utf8.byte c < 0x80 ->
  Unicode.IsLower (Utf8.byte c)
  = (0x61 <=? Utf8.byte c) && (Utf8.byte c <=? 0x7A).
Proof.
  destruct c as [b0 b1 b2 b3 b4 b5 b6 b7].
  destruct b7; [intros H; exfalso; revert H;
                destruct b0, b1, b2, b3, b4, b5, b6; vm_compute; congruence|].
  intros _. destruct b0, b1, b2, b3, b4, b5, b6; reflexivity.
Qed.

(** X9. After the prefix, an ASCII character ends the word unless it is
    one of the letters [a] to [z]: a digit, an underscore or an upper-case
    letter after "Test" or "Mock" makes the name match, a lower-case
    letter does not. *)
Theorem startsWith_ascii (prefix rest : string) (c : ascii) :
  Utf8.byte c < 0x80 ->
  startsWith (prefix +:+ String c rest) prefix
  = negb ((0x61 <=? Utf8.byte c) && (Utf8.byte c <=? 0x7A)).
Proof.
  intros Hc. unfold startsWith.
  replace (HasPrefix (prefix +:+ String c rest) prefix) with true
    by (symmetry; apply HasPrefix_iff; now exists (String c rest)).
  rewrite length_append, slice_from_append, (DecodeRune_ascii _ _ Hc).
  replace (String.length prefix + String.length (String c rest)
           =? String.length prefix)%nat with false
    by (symmetry; apply Nat.eqb_neq; simpl; lia).
  simpl. now rewrite (IsLower_ascii _ Hc).
Qed.

(** [Test_2] is the name of a test: the underscore ends the word. *)
Lemma startsWith_ascii_witness :
  startsWith ("Test" +:+ String "_" "2") "Test"
  = negb ((0x61 <=? Utf8.byte "_") && (Utf8.byte "_" <=? 0x7A)).
Proof.
  apply (startsWith_ascii "Test" "2" "_"). vm_compute; reflexivity.
Defined.

(** ** More of the capture store *)

Section CaptureStoreMoreFacts.

Context {rtype data : Type}.
Variable AssignableTo : rtype -> rtype -> bool.

Local Abbreviation store := (BaseTest rtype data).
Local Abbreviation value := (any rtype data).

Lemma Capture_no_caller_panics_aux (x : store) (stk : goroutine)
  (values : list value) :
  Mocked (BuildCallerStack stk) = None ->
  Caller (BuildCallerStack stk) = None ->
  Capture x stk values = Panic NilDereference.
Proof. intros Hm Hc. unfold Capture. rewrite Hm, Hc. reflexivity. Qed.

(** What a call of [Capture] that returns has done to the store. *)
Lemma Capture_returns (x x' : store) (stk : goroutine) (values : list value) :
  Capture x stk values = Return x' ->
  captured x' = (captured x ++ values)%list
  /\ (Mocked (BuildCallerStack stk) = None /\ capsFrom x' = capsFrom x
      \/ exists key,
           MockedCall (D := unit) (BuildCallerStack stk) = Return key
           /\ capsFrom x' =
              <[key := (default [] (capsFrom x !! key) ++ values)%list]> (capsFrom x)).
Proof.
  intros H.
  destruct (Mocked (BuildCallerStack stk)) as [mocked|] eqn:Hm.
  - destruct (Mocked_set_Mocker_set _ _ Hm) as [mocker Hr].
    pose proof (Capture_mocked x stk values _ _ Hm Hr) as E. cbv zeta in E.
    rewrite E in H. injection H as <-. split; [reflexivity|].
    right. eexists. split; [|reflexivity].
    unfold MockedCall. now rewrite Hr, Hm.
  - destruct (Caller (BuildCallerStack stk)) as [c|] eqn:Hc.
    + rewrite (Capture_no_mock x stk values c Hm Hc) in H.
      injection H as <-. split; [reflexivity | left; now split].
    + rewrite (Capture_no_caller_panics_aux x stk values Hm Hc) in H.
      discriminate H.
Qed.

Lemma capturedOfType_sublist (expectTypeOf : value) (caps : list value) :
  sublist (capturedOfType AssignableTo expectTypeOf caps) caps.
Proof.
  unfold capturedOfType. induction caps as [|v caps IH]; simpl;
    [apply sublist_nil|].
  destruct (match Match AssignableTo expectTypeOf v with
            | Some matched => matched
            | None => false
            end); [now apply sublist_skip | now apply sublist_cons].
Qed.

Lemma buckets_within_Capture (x x' : store) (stk : goroutine)
  (values : list value) :
  buckets_within x -> Capture x stk values = Return x' -> buckets_within x'.
Proof.
  intros Hx H key bucket Hb.
  apply Capture_returns in H as [Hc [[_ Hf]|(k & _ & Hf)]]; rewrite Hc.
  - rewrite Hf in Hb. apply sublist_inserts_r. now apply (Hx key).
  - rewrite Hf in Hb. destruct (decide (k = key)) as [->|Hne].
    + rewrite lookup_insert_eq in Hb. injection Hb as <-.
      apply sublist_app; [|reflexivity].
      destruct (capsFrom x !! key) as [b|] eqn:E; simpl;
        [now apply (Hx key) | apply sublist_nil_l].
    + rewrite lookup_insert_ne in Hb by assumption.
      apply sublist_inserts_r. now apply (Hx key).
Qed.

Lemma Captures_from (x x' : store) (calls : list (goroutine * list value)) :
  buckets_within x ->
  Captures x calls = Return x' ->
  captured x' = (captured x ++ concat (map snd calls))%list
  /\ buckets_within x'.
Proof.
  revert x; induction calls as [|[stk values] calls IH]; intros x Hx H.
  - injection H as <-. split; [now rewrite app_nil_r | assumption].
  - simpl in H. destruct (Capture x stk values) as [x1| |] eqn:E;
      try discriminate H.
    simpl in H. apply IH in H as [Hc Hb];
      [|now apply (buckets_within_Capture x x1 stk values)].
    split; [|assumption].
    apply Capture_returns in E as [E _]. rewrite Hc, E. simpl.
    now rewrite <- app_assoc.
Qed.

(** X10. After any run of calls of [Capture] on a new store, the global
    sequence holds the values of all calls in the order of the calls, and
    every bucket is a subsequence of it: what [CapturedFrom] returns for a
    key is found, in the same order, in [AllCaptured]. *)
Theorem Captures_global_sequence (calls : list (goroutine * list value))
  (x : store) :
  Captures New calls = Return x ->
  AllCaptured x = concat (map snd calls)
  /\ forall (order : list string) (stk : goroutine) (key : string)
        (caps : list value),
       CapturedFrom x order stk key = Return caps ->
       sublist caps (AllCaptured x).
Proof.
  intros H. apply Captures_from in H as [Hc Hb].
  - split; [exact Hc|]. intros order stk key caps Hk.
    unfold CapturedFrom in Hk.
    destruct (bool_decide (capsFrom x = ∅)); [discriminate|].
    destruct (capsFrom x !! key) as [b|] eqn:E.
    + injection Hk as <-. now apply (Hb key).
    + destruct (LogString_of (GetCallerInfo stk)); discriminate.
  - intros key bucket Hk. unfold New in Hk. simpl in Hk.
    rewrite lookup_empty in Hk. discriminate.
Qed.

(** X11. A call of [Capture] that returns leaves what was captured before
    in place: the old global sequence is a prefix of the new, every bucket
    of the old store is a prefix of the bucket the new store has for the
    same key, and at most one bucket differs. *)
Theorem Capture_only_appends (x x' : store) (stk : goroutine)
  (values : list value) :
  Capture x stk values = Return x' ->
  captured x `prefix_of` captured x'
  /\ (forall key bucket,
        capsFrom x !! key = Some bucket ->
        exists bucket', capsFrom x' !! key = Some bucket'
                        /\ bucket `prefix_of` bucket')
  /\ (forall key key',
        capsFrom x' !! key <> capsFrom x !! key ->
        capsFrom x' !! key' <> capsFrom x !! key' ->
        key = key').
Proof.
  intros H. apply Capture_returns in H as [Hc Hf].
  split; [rewrite Hc; now apply prefix_app_r|].
  destruct Hf as [[_ Hf]|(k & _ & Hf)]; rewrite Hf.
  - split; [|congruence]. intros key bucket Hb. now exists bucket.
  - split.
    + intros key bucket Hb. destruct (decide (k = key)) as [->|Hne].
      * rewrite lookup_insert_eq, Hb. simpl. eexists. split; [reflexivity|].
        now apply prefix_app_r.
      * rewrite lookup_insert_ne by assumption. now exists bucket.
    + intros key key' Hk Hk'.
      destruct (decide (k = key)) as [->|Hne];
        [|now rewrite lookup_insert_ne in Hk].
      destruct (decide (key = key')) as [->|Hne'];
        [reflexivity | now rewrite lookup_insert_ne in Hk'].
Qed.

(** X12. What [Capture] appends, [Captured] reads back: after a call of
    [Capture] that returns, the value number [i] of the call is at index
    [len + i] of the global sequence, [len] being the length before the
    call, and [Captured] returns it when its type matches. *)
Theorem Capture_then_Captured (x x' : store) (stk : goroutine)
  (values : list value) (i : nat) (v expectTypeOf : value) :
  Capture x stk values = Return x' ->
  values !! i = Some v ->
  Match AssignableTo expectTypeOf v = Some true ->
  Z.of_nat (length (captured x) + i) < 2 ^ 63 - 1 ->
  Captured AssignableTo x' (Z.of_nat (length (captured x) + i)) expectTypeOf
  = Return v.
Proof.
  intros H Hi Hm Hlt. apply Capture_returns in H as [Hc _].
  assert (captured x' !! (length (captured x) + i)%nat = Some v) as Hv
    by (rewrite Hc, lookup_app_r by lia;
        now replace (length (captured x) + i - length (captured x))%nat with i by lia).
  pose proof (Captured_cases AssignableTo x'
                (Z.of_nat (length (captured x) + i)) expectTypeOf) as Hcases.
  cbv zeta in Hcases. rewrite Nat2Z.id in Hcases.
  destruct (Captured AssignableTo x' _ expectTypeOf) as [w|d|p].
  - destruct Hcases as (_ & Hw & _); [lia|]. congruence.
  - apply lookup_lt_Some in Hv as Hlen.
    destruct Hcases as [[Hz _]|[[Hz _]|(w & Hw & Hn & _)]]; [lia | lia | lia |].
    congruence.
  - destruct Hcases. lia.
Qed.

(** X13. Capturing no values under a mock still makes the bucket of the
    key: a key that had no bucket, for which [CapturedFrom] does not
    return, has an empty bucket afterwards, which [CapturedFrom] returns;
    the global sequence stays as it was. *)
Theorem Capture_nothing_makes_bucket (x : store) (stk stk' : goroutine)
  (order : list string) (key : string) :
  MockedCall (D := unit) (BuildCallerStack stk) = Return key ->
  capsFrom x !! key = None ->
  (forall caps, CapturedFrom x order stk' key <> Return caps)
  /\ exists x',
       Capture x stk [] = Return x'
       /\ captured x' = captured x
       /\ CapturedFrom x' order stk' key = Return [].
Proof.
  unfold MockedCall. intros Hk Hx.
  destruct (Mocker (BuildCallerStack stk)) as [mocker|] eqn:Hr; [|discriminate].
  destruct (Mocked (BuildCallerStack stk)) as [mocked|] eqn:Hm; [|discriminate].
  assert (Join [Object (info mocker); Function (info mocker);
                Object (info mocked); Function (info mocked)] "." = key) as Hkey
    by (injection Hk as Hk; exact Hk).
  split.
  - intros caps. unfold CapturedFrom.
    destruct (bool_decide (capsFrom x = ∅)); [discriminate|].
    rewrite Hx. destruct (LogString_of (GetCallerInfo stk')); discriminate.
  - pose proof (Capture_mocked x stk [] _ _ Hm Hr) as E. cbv zeta in E.
    rewrite Hkey in E. eexists. split; [exact E|].
    cbn [captured capsFrom]. split; [apply app_nil_r|].
    apply CapturedFrom_found. cbn [capsFrom].
    now rewrite lookup_insert_eq, Hx.
Qed.

(** X14. Values captured with no mock frame on the stack go to the global
    sequence only: [AllCaptured] holds them, but [CapturedOfType] looks in
    the buckets alone and, on a store without buckets, does not return. *)
Theorem unmocked_capture_not_of_type (x x' : store) (stk : goroutine)
  (values : list value) :
  capsFrom x = ∅ ->
  Mocked (BuildCallerStack stk) = None ->
  Capture x stk values = Return x' ->
  (forall v, v ∈ values -> v ∈ AllCaptured x')
  /\ forall (order : list string) (stk' : goroutine) (expectTypeOf : value)
        (caps : list value),
       CapturedOfType AssignableTo x' order stk' expectTypeOf <> Return caps.
Proof.
  intros He Hm H. apply Capture_returns in H as [Hc Hf]. split.
  - intros v Hv. unfold AllCaptured. rewrite Hc. apply elem_of_app. now right.
  - assert (capsFrom x' = ∅) as He'.
    { destruct Hf as [[_ Hf]|(k & Hk & _)]; [congruence|].
      unfold MockedCall in Hk. rewrite Hm in Hk.
      destruct (Mocker (BuildCallerStack stk)); discriminate. }
    intros order stk' e caps. unfold CapturedOfType, range_values.
    assert (omap (fun key => capsFrom x' !! key) order = []) as ->.
    { rewrite He'. induction order as [|k order IH]; [reflexivity|]. simpl.
      now rewrite lookup_empty. }
    simpl. destruct (LogString_of (GetCallerInfo stk')); discriminate.
Qed.

(** X15. Asking [CapturedFrom] for a key that has no bucket, on a store
    that has buckets, fails the test with a message that names the caller,
    the key asked for and the keys that do have a bucket, each once. *)
Theorem CapturedFrom_missing_key (x : store) (order : list string)
  (stk : goroutine) (mockCall : string) (c : FuncInfoRef) :
  order ≡ₚ (map_to_list (capsFrom x)).*1 ->
  capsFrom x <> ∅ ->
  capsFrom x !! mockCall = None ->
  GetCallerInfo stk = Some c ->
  exists keys,
    keys ≡ₚ (map_to_list (capsFrom x)).*1
    /\ (mockCall ∉ keys)
    /\ CapturedFrom x order stk mockCall =
       Fatalf (mkDiag "at %s there were no captures from mock call '%s'!  keys %v"
                 [ArgString (LogString (info c)); ArgString mockCall;
                  ArgStrings keys]).
Proof.
  intros Ho Hne Hk Hc. exists (capturedKeys x order).
  pose proof (capturedKeys_Permutation x order Ho) as Hp.
  split; [exact Hp|]. split.
  - rewrite Hp. intros Hin. apply list_elem_of_fmap in Hin as ([k b] & -> & Hkb).
    apply elem_of_map_to_list in Hkb. simpl in Hk. congruence.
  - unfold CapturedFrom. rewrite bool_decide_eq_false_2 by assumption.
    now rewrite Hk, Hc.
Qed.

(** X16. What [CapturedOfTypeFromCall] returns is never empty: it is the
    values of the bucket of the key that match the expected type, in the
    order of the bucket. *)
Theorem CapturedOfTypeFromCall_returns (x : store) (order : list string)
  (stk_from stk : goroutine) (expectTypeOf : value) (mockCall : string)
  (caps : list value) :
  CapturedOfTypeFromCall AssignableTo x order stk_from stk expectTypeOf mockCall
  = Return caps ->
  caps <> []
  /\ exists bucket,
       capsFrom x !! mockCall = Some bucket
       /\ sublist caps bucket
       /\ forall v, v ∈ caps <->
                    v ∈ bucket /\ Match AssignableTo expectTypeOf v = Some true.
Proof.
  unfold CapturedOfTypeFromCall, CapturedFrom. intros H.
  destruct (bool_decide (capsFrom x = ∅)); [discriminate|].
  destruct (capsFrom x !! mockCall) as [bucket|] eqn:Hb.
  - simpl in H.
    destruct (capturedOfType AssignableTo expectTypeOf bucket) as [|v l] eqn:E.
    + simpl in H. destruct (LogString_of (GetCallerInfo stk)); discriminate.
    + simpl in H. injection H as <-. split; [discriminate|].
      exists bucket. split; [reflexivity|]. rewrite <- E. split.
      * apply capturedOfType_sublist.
      * intros w. apply elem_of_capturedOfType.
  - simpl in H. destruct (LogString_of (GetCallerInfo stk_from)); discriminate.
Qed.

(** X17. A nil expected value matches nothing, and a captured nil is
    matched by nothing: with nil for the expected type neither [Captured]
    nor [CapturedOfType] returns, and [CapturedOfType] never returns a nil
    among its values. *)
Theorem nil_never_matches (x : store) (order : list string) (stk : goroutine) :
  (forall (index : Z) (v : value),
      Captured AssignableTo x index None <> Return v)
  /\ (forall caps, CapturedOfType AssignableTo x order stk None <> Return caps)
  /\ (forall (expectTypeOf : value) (caps : list value),
        CapturedOfType AssignableTo x order stk expectTypeOf = Return caps ->
        None ∉ caps).
Proof.
  split; [|split].
  - intros index v. unfold Captured.
    destruct (_ =? 0); [discriminate|].
    destruct (negb _); [discriminate|].
    destruct (index_captured x index) as [w| |]; simpl; discriminate.
  - intros caps. unfold CapturedOfType.
    assert (forall l : list (list value),
               concat (map (capturedOfType AssignableTo None) l) = []) as ->.
    { induction l as [|b l IH]; [reflexivity|]. simpl. rewrite IH, app_nil_r.
      unfold capturedOfType. induction b as [|w b IHb]; [reflexivity|].
      simpl. exact IHb. }
    simpl. destruct (LogString_of (GetCallerInfo stk)); discriminate.
  - intros e caps H Hin. unfold CapturedOfType in H.
    destruct (length _ =? 0)%nat eqn:El.
    + destruct (LogString_of (GetCallerInfo stk)); discriminate.
    + injection H as <-.
      apply list_elem_of_In, in_concat in Hin as (b & Hl & Hb).
      apply in_map_iff in Hl as (b0 & <- & _).
      apply list_elem_of_In, elem_of_capturedOfType in Hb as [_ Hm].
      now destruct e as [[t d]|].
Qed.

(** X18. [FirstCapturedOfType] never indexes an empty result: when it
    returns, the value is one of a bucket and matches the expected type;
    otherwise nothing in the buckets matches and the call ends as
    [CapturedOfType] does. *)
Theorem FirstCapturedOfType_cases (x : store) (order : list string)
  (stk : goroutine) (expectTypeOf : value) :
  order ≡ₚ (map_to_list (capsFrom x)).*1 ->
  match FirstCapturedOfType AssignableTo x order stk expectTypeOf with
  | Return v =>
      exists key bucket,
        capsFrom x !! key = Some bucket /\ v ∈ bucket
        /\ Match AssignableTo expectTypeOf v = Some true
  | Fatalf _ => matching AssignableTo x expectTypeOf = []
  | Panic p => p = NilDereference /\ matching AssignableTo x expectTypeOf = []
  end.
Proof.
  intros Ho. unfold FirstCapturedOfType.
  pose proof (CapturedOfType_cases AssignableTo x order stk expectTypeOf Ho) as H.
  destruct (CapturedOfType AssignableTo x order stk expectTypeOf)
    as [caps|d|p]; simpl.
  - destruct H as [Hne Hp]. destruct caps as [|v caps]; [contradiction|].
    apply (elem_of_matching AssignableTo). rewrite <- Hp. now left.
  - now destruct H.
  - now destruct H as (? & _ & ->).
Qed.

End CaptureStoreMoreFacts.

(** The stores of the examples. *)

Lemma order_mocked_42 :
  [key_mocked] ≡ₚ (map_to_list (capsFrom store_mocked_42)).*1.
Proof.
  unfold store_mocked_42. cbn [capsFrom]. now rewrite map_to_list_singleton.
Qed.

Lemma store_mocked_42_not_empty : capsFrom store_mocked_42 <> ∅.
Proof.
  intros E.
  assert (capsFrom store_mocked_42 !! key_mocked = Some [int_ 42]) as H
    by apply lookup_singleton_eq.
  rewrite E, lookup_empty in H. discriminate H.
Qed.

(** The store the three calls of [calls_three] leave. *)
Lemma Captures_calls_three : Captures New calls_three = Return store_three.
Proof.
  unfold calls_three, Captures.
  rewrite Capture_stack_mocked. cbn [mbind outcome_bind].
  rewrite Capture_stack_direct. cbn [mbind outcome_bind].
  rewrite Capture_stack_mocked. cbn [mbind outcome_bind].
  unfold store_three, New. cbn [captured capsFrom logged].
  rewrite lookup_empty, insert_empty, lookup_singleton_eq.
  cbn [default app]. now rewrite insert_singleton_eq.
Qed.

(** Three calls, "a" and "b" with the mock of [stack_mocked] on the stack
    and 42 in between with none: the global sequence holds "a", 42, "b";
    the bucket of the key holds "a", "b", a subsequence that leaves 42
    out. *)
Lemma Captures_global_sequence_witness :
  AllCaptured store_three = [string_ "a"; int_ 42; string_ "b"]
  /\ CapturedFrom store_three [key_mocked] (stack_lookup "CapturedFrom" 289)
       key_mocked
     = Return [string_ "a"; string_ "b"]
  /\ sublist [string_ "a"; string_ "b"] (AllCaptured store_three).
Proof.
  destruct (Captures_global_sequence calls_three store_three
              Captures_calls_three) as [Hall Hsub].
  assert (CapturedFrom store_three [key_mocked]
            (stack_lookup "CapturedFrom" 289) key_mocked
          = Return [string_ "a"; string_ "b"]) as Hfrom
    by (apply CapturedFrom_found, lookup_singleton_eq).
  split; [exact Hall|]. split; [exact Hfrom|].
  exact (Hsub _ _ _ _ Hfrom).
Defined.

(** [Capture("a")] on [stack_mocked] where the store held 42 under the
    same key: 42 stays first in the global sequence and in the bucket. *)
Lemma Capture_store_mocked_42_a :
  Capture store_mocked_42 stack_mocked [string_ "a"] = Return store_mocked_42_a.
Proof.
  rewrite Capture_stack_mocked.
  unfold store_mocked_42_a, store_mocked_42. cbn [captured capsFrom logged].
  rewrite lookup_singleton_eq. cbn [default app].
  now rewrite insert_singleton_eq.
Qed.

Lemma Capture_only_appends_witness :
  captured store_mocked_42 `prefix_of` captured store_mocked_42_a
  /\ (forall key bucket,
         capsFrom store_mocked_42 !! key = Some bucket ->
         exists bucket', capsFrom store_mocked_42_a !! key = Some bucket'
                         /\ bucket `prefix_of` bucket')
  /\ (forall key key',
         capsFrom store_mocked_42_a !! key <> capsFrom store_mocked_42 !! key ->
         capsFrom store_mocked_42_a !! key' <> capsFrom store_mocked_42 !! key' ->
         key = key').
Proof.
  apply (Capture_only_appends store_mocked_42 store_mocked_42_a stack_mocked
           [string_ "a"]).
  exact Capture_store_mocked_42_a.
Defined.

Lemma Capture_then_Captured_witness :
  Captured basic_AssignableTo store_direct_42
    (Z.of_nat (length (captured (New (rtype := basic) (data := basic_data))) + 0))
    (int_ 0)
  = Return (int_ 42).
Proof.
  apply (Capture_then_Captured basic_AssignableTo New store_direct_42
           (stack_direct "Capture" 219) [int_ 42] 0 (int_ 42) (int_ 0)).
  - reflexivity.
  - reflexivity.
  - reflexivity.
  - vm_compute; reflexivity.
Defined.

Lemma Capture_nothing_makes_bucket_witness :
  (forall caps,
      CapturedFrom (New (rtype := basic) (data := basic_data)) []
        (stack_lookup "CapturedFrom" 282) key_mocked <> Return caps)
  /\ exists x',
      Capture (New (rtype := basic) (data := basic_data)) stack_mocked []
      = Return x'
      /\ captured x' = captured (New (rtype := basic) (data := basic_data))
      /\ CapturedFrom x' [] (stack_lookup "CapturedFrom" 282) key_mocked
         = Return [].
Proof.
  apply (Capture_nothing_makes_bucket New stack_mocked
           (stack_lookup "CapturedFrom" 282) [] key_mocked).
  - vm_compute; reflexivity.
  - apply lookup_empty.
Defined.

Lemma unmocked_capture_not_of_type_witness :
  (forall v, v ∈ [int_ 42] -> v ∈ AllCaptured store_direct_42)
  /\ forall (order : list string) (stk' : goroutine)
       (expectTypeOf : any basic basic_data) (caps : list (any basic basic_data)),
      CapturedOfType basic_AssignableTo store_direct_42 order stk' expectTypeOf
      <> Return caps.
Proof.
  destruct (unmocked_capture_not_of_type basic_AssignableTo New store_direct_42
              (stack_direct "Capture" 219) [int_ 42]) as [H1 H2].
  - reflexivity.
  - vm_compute; reflexivity.
  - reflexivity.
  - split; [exact H1 | exact H2].
Defined.

Lemma CapturedFrom_missing_key_witness :
  exists keys,
    keys ≡ₚ (map_to_list (capsFrom store_mocked_42)).*1
    /\ ("Service.Send.MockLogger.Error" ∉ keys)
    /\ CapturedFrom store_mocked_42 [key_mocked] (stack_lookup "CapturedFrom" 282)
         "Service.Send.MockLogger.Error" =
       Fatalf (mkDiag "at %s there were no captures from mock call '%s'!  keys %v"
                 [ArgString "example.com/app.TestFoo at app/app_test.go:12";
                  ArgString "Service.Send.MockLogger.Error";
                  ArgStrings keys]).
Proof.
  apply (CapturedFrom_missing_key store_mocked_42 [key_mocked]
           (stack_lookup "CapturedFrom" 282) "Service.Send.MockLogger.Error"
           (mkRef 4 (NewFuncInfo "example.com/app.TestFoo" "app/app_test.go" 12))).
  - exact order_mocked_42.
  - exact store_mocked_42_not_empty.
  - apply lookup_singleton_ne. unfold key_mocked. discriminate.
  - vm_compute; reflexivity.
Defined.

Lemma CapturedOfTypeFromCall_returns_witness :
  [int_ 42] <> []
  /\ exists bucket,
      capsFrom store_mocked_42 !! key_mocked = Some bucket
      /\ sublist [int_ 42] bucket
      /\ forall v, v ∈ [int_ 42] <->
                   v ∈ bucket /\ Match basic_AssignableTo (int_ 0) v = Some true.
Proof.
  apply (CapturedOfTypeFromCall_returns basic_AssignableTo store_mocked_42
           [key_mocked] (stack_lookup "CapturedFrom" 289)
           (stack_lookup "CapturedOfTypeFromCall" 292) (int_ 0) key_mocked
           [int_ 42]).
  rewrite (CapturedOfTypeFromCall_found basic_AssignableTo store_mocked_42
             [key_mocked] _ _ (int_ 0) key_mocked [int_ 42]).
  - reflexivity.
  - apply lookup_singleton_eq.
  - discriminate.
Defined.

Lemma FirstCapturedOfType_cases_witness :
  match FirstCapturedOfType basic_AssignableTo store_mocked_42 [key_mocked]
          (stack_lookup "CapturedOfType" 261) (int_ 0) with
  | Return v =>
      exists key bucket,
        capsFrom store_mocked_42 !! key = Some bucket /\ v ∈ bucket
        /\ Match basic_AssignableTo (int_ 0) v = Some true
  | Fatalf _ => matching basic_AssignableTo store_mocked_42 (int_ 0) = []
  | Panic p =>
      p = NilDereference /\ matching basic_AssignableTo store_mocked_42 (int_ 0) = []
  end.
Proof.
  apply (FirstCapturedOfType_cases basic_AssignableTo store_mocked_42 [key_mocked]
           (stack_lookup "CapturedOfType" 261) (int_ 0)).
  exact order_mocked_42.
Defined.

Lemma BuildCallerStack_frames (stk stk' : goroutine) :
  stk !! 1%nat = stk' !! 1%nat ->
  drop 3 stk = drop 3 stk' ->
  BuildCallerStack stk = BuildCallerStack stk'.
Proof.
  intros H1 H3. unfold BuildCallerStack, CallerFuncInfo. now rewrite H1, H3.
Qed.

(** X26. The key [GetMockedCallName] returns names the bucket [Capture]
    fills when both are called from the same place: the two walks differ
    in the frame of the method alone, which neither looks at, so after the
    capture [CapturedFrom] returns for that key what the bucket held
    before followed by the values captured. *)
Theorem Capture_under_GetMockedCallName {rtype data : Type}
  (x x' : BaseTest rtype data) (stk stk_name stk' : goroutine)
  (order : list string) (values : list (any rtype data)) (key : string) :
  stk_name !! 1%nat = stk !! 1%nat ->
  drop 3 stk_name = drop 3 stk ->
  GetMockedCallName (D := unit) stk_name = Return key ->
  Capture x stk values = Return x' ->
  CapturedFrom x' order stk' key
  = Return (default [] (capsFrom x !! key) ++ values)%list.
Proof.
  intros H1 H3 Hk H. unfold GetMockedCallName in Hk.
  rewrite (BuildCallerStack_frames _ _ H1 H3) in Hk.
  apply Capture_returns in H as [_ [[Hm _]|(k & Hk' & Hf)]].
  - exfalso. unfold MockedCall in Hk. rewrite Hm in Hk.
    destruct (Mocker (BuildCallerStack stk)); discriminate.
  - rewrite Hk in Hk'. injection Hk' as <-.
    apply CapturedFrom_found. rewrite Hf. apply lookup_insert_eq.
Qed.

(** [GetMockedCallName] and [Capture] called from the closure of
    [stack_mocked]. *)
Lemma Capture_under_GetMockedCallName_witness :
  CapturedFrom store_mocked_42 [key_mocked] (stack_lookup "CapturedFrom" 282)
    key_mocked
  = Return (default [] (capsFrom (New (rtype := basic) (data := basic_data))
                          !! key_mocked) ++ [int_ 42])%list.
Proof.
  apply (Capture_under_GetMockedCallName New store_mocked_42 stack_mocked
           stack_mocked_name (stack_lookup "CapturedFrom" 282) [key_mocked]
           [int_ 42] key_mocked).
  - reflexivity.
  - reflexivity.
  - vm_compute; reflexivity.
  - exact Capture_mocked_42.
Defined.

(** ** Environment, arguments and what [Done] restores *)

Section EnvironmentFacts.

Context {rtype data : Type}.
Variable Setenv_ok : string -> string -> bool.
Variable mockFinish : outcome (diag rtype data) unit.

Local Abbreviation SetEnv' := (SetEnv Setenv_ok).
Local Abbreviation set_all :=
  (fold_left (fun st (pair : string * string) => SetEnv' pair.1 pair.2 st)).

Lemma length_names_and_values (pairs : list (string * string)) :
  length (names_and_values pairs) = (2 * length pairs)%nat.
Proof. induction pairs as [|pr pairs IH]; simpl; [reflexivity | lia]. Qed.

Lemma splitPairs_names_and_values (pairs : list (string * string)) :
  splitPairs (names_and_values pairs)
  = Some (map (fun pair => [pair.1; pair.2]) pairs).
Proof.
  induction pairs as [|pr pairs IH]; [reflexivity|].
  change (splitPairs (names_and_values (pr :: pairs)))
    with (cons [pr.1; pr.2] <$> splitPairs (names_and_values pairs)).
  now rewrite IH.
Qed.

Lemma even_names_and_values (l : list string) :
  (length l mod 2 = 0)%nat -> exists pairs, l = names_and_values pairs.
Proof.
  assert (forall n (l : list string),
             (length l <= n)%nat -> (length l mod 2 = 0)%nat ->
             exists pairs, l = names_and_values pairs) as H.
  { induction n as [|n IH]; intros l0 Hn He.
    - destruct l0; [now exists [] | simpl in Hn; lia].
    - destruct l0 as [|a [|b l0]].
      + now exists [].
      + simpl in He. discriminate He.
      + destruct (IH l0) as [pairs ->].
        * simpl in Hn. lia.
        * simpl length in He.
          replace (S (S (length l0))) with (length l0 + 1 * 2)%nat in He by lia.
          now rewrite Nat.Div0.mod_add in He.
        * now exists ((a, b) :: pairs). }
  apply (H (length l)). lia.
Qed.

Lemma SetEnvs_pairs (st : Fixture * Process) (pairs : list (string * string)) :
  pairs <> [] ->
  SetEnvs Setenv_ok (rtype := rtype) (data := data) st
    (Some (names_and_values pairs))
  = Return (set_all pairs st).
Proof.
  intros Hne. unfold SetEnvs. cbv zeta. cbn [default from_option id].
  rewrite !length_names_and_values.
  destruct pairs as [|pr pairs]; [contradiction|].
  replace (bool_decide (Some (names_and_values (pr :: pairs)) <> None)
           && (2 * length (pr :: pairs) <? 2)%nat) with false
    by (symmetry; apply andb_false_iff; right; apply Nat.ltb_ge; simpl; lia).
  replace ((2 * length (pr :: pairs)) mod 2 =? 1)%nat with false
    by (symmetry; apply Nat.eqb_neq;
        rewrite Nat.mul_comm, Nat.Div0.mod_mul; discriminate).
  rewrite splitPairs_names_and_values. f_equal.
  generalize (pr :: pairs) st. clear.
  induction l as [|q l IH]; intros st; simpl; [reflexivity | apply IH].
Qed.

(** X19. [SetEnvs] checks its arguments before it sets anything: called
    with no argument it changes nothing; called with one argument, with an
    empty slice or with an odd number of arguments it fails the test; with
    a positive even number of arguments it sets the pairs in order. It
    never reaches the slice expression of [splitPairs] that would go past
    the end. *)
Theorem SetEnvs_checks (st : Fixture * Process)
  (namesAndValues : option (list string)) :
  match SetEnvs Setenv_ok (rtype := rtype) (data := data) st namesAndValues with
  | Return st' =>
      (namesAndValues = None /\ st' = st)
      \/ exists pairs,
           pairs <> [] /\ namesAndValues = Some (names_and_values pairs)
           /\ st' = set_all pairs st
  | Fatalf d =>
      exists l,
        namesAndValues = Some l
        /\ ((length l < 2)%nat
            /\ d = mkDiag "must set at least one name and value pair! passed values %v"
                     [ArgStrings l]
            \/ (2 <= length l)%nat /\ (length l mod 2 = 1)%nat
               /\ d = mkDiag "must pass names and values in even pairs! passed %d values %v"
                        [ArgInt (Z.of_nat (length l)); ArgStrings l])
  | Panic _ => False
  end.
Proof.
  destruct namesAndValues as [l|].
  - destruct (Nat.ltb_spec (length l) 2) as [Hlt|Hge].
    + unfold SetEnvs. cbv zeta. cbn [default from_option id].
      replace (bool_decide (Some l <> None)) with true
        by (symmetry; now apply bool_decide_eq_true_2).
      replace (length l <? 2)%nat with true by (symmetry; now apply Nat.ltb_lt).
      simpl. exists l. split; [reflexivity | left; now split].
    + destruct (Nat.eqb_spec (length l mod 2) 1) as [Hodd|Heven].
      * unfold SetEnvs. cbv zeta. cbn [default from_option id].
        replace (length l <? 2)%nat with false
          by (symmetry; now apply Nat.ltb_ge).
        rewrite andb_false_r.
        replace (length l mod 2 =? 1)%nat with true
          by (symmetry; now apply Nat.eqb_eq).
        exists l. split; [reflexivity | right; now repeat split].
      * assert (length l mod 2 = 0)%nat as He.
        { pose proof (Nat.mod_upper_bound (length l) 2). lia. }
        destruct (even_names_and_values l He) as [pairs ->].
        assert (pairs <> []) as Hne
          by (intros ->; simpl in Hge; lia).
        rewrite (SetEnvs_pairs st pairs Hne). right. now exists pairs.
  - left. split; reflexivity.
Qed.

(** What one [SetEnv] does to the environment and to the chain. *)
Lemma SetEnv_Environ (name val : string) (st : Fixture * Process) (n : string) :
  Environ (SetEnv' name val st).2 !! n =
  if decide (n = name)
  then (if Setenv_ok name val then Some val else Environ st.2 !! n)
  else Environ st.2 !! n.
Proof.
  destruct st as [x p]. unfold SetEnv, os_Setenv. cbn [snd].
  destruct (Setenv_ok name val); cbn [Environ].
  - destruct (decide (n = name)) as [->|Hne];
      [apply lookup_insert_eq | now apply lookup_insert_ne].
  - now destruct (decide (n = name)).
Qed.

Lemma SetEnv_os_Args (name val : string) (st : Fixture * Process) :
  os_Args (SetEnv' name val st).2 = os_Args st.2.
Proof.
  destruct st as [x p]. unfold SetEnv, os_Setenv. cbn [snd].
  now destruct (Setenv_ok name val).
Qed.

Lemma SetEnv_afterFunc (name val : string) (st : Fixture * Process) :
  afterFunc (SetEnv' name val st).1 = (afterFunc st.1 ++ [restore_of st.2 name])%list.
Proof.
  destruct st as [x p]. unfold SetEnv, restoreExistingEnvAfter, restore_of,
    os_LookupEnv. cbn [fst snd].
  now destruct (Environ p !! name).
Qed.

Lemma set_all_Environ (pairs : list (string * string)) (st : Fixture * Process) :
  NoDup pairs.*1 ->
  (forall name val, (name, val) ∈ pairs -> Setenv_ok name val = true ->
                    Environ (set_all pairs st).2 !! name = Some val)
  /\ (forall name, name ∉ pairs.*1 ->
                   Environ (set_all pairs st).2 !! name = Environ st.2 !! name)
  /\ os_Args (set_all pairs st).2 = os_Args st.2.
Proof.
  revert st; induction pairs as [|[n0 v0] pairs IH]; intros st Hnd.
  - repeat split. intros name val Hin. inversion Hin.
  - apply NoDup_cons in Hnd as [Hn0 Hnd]. simpl fold_left.
    destruct (IH (SetEnv' n0 v0 st) Hnd) as (Hset & Hkeep & Hargs).
    split; [|split].
    + intros name val [Heq|Hin]%elem_of_cons Hok.
      * injection Heq as -> ->. rewrite Hkeep by assumption.
        rewrite SetEnv_Environ, decide_True by reflexivity. now rewrite Hok.
      * now apply Hset.
    + intros name [Hne Hnot]%not_elem_of_cons. rewrite Hkeep by assumption.
      now rewrite SetEnv_Environ, decide_False.
    + now rewrite Hargs, SetEnv_os_Args.
Qed.

Lemma set_all_afterFunc (pairs : list (string * string)) (st : Fixture * Process) :
  NoDup pairs.*1 ->
  afterFunc (set_all pairs st).1
  = (afterFunc st.1 ++ map (restore_of st.2) pairs.*1)%list.
Proof.
  revert st; induction pairs as [|[n0 v0] pairs IH]; intros st Hnd.
  - simpl. now rewrite app_nil_r.
  - apply NoDup_cons in Hnd as [Hn0 Hnd]. simpl fold_left.
    rewrite (IH _ Hnd), SetEnv_afterFunc, <- app_assoc. f_equal. simpl.
    f_equal. apply map_ext_in. intros n Hn. unfold restore_of.
    rewrite SetEnv_Environ, decide_False; [reflexivity|].
    intros ->. apply Hn0. now apply list_elem_of_In.
Qed.

Lemma run_after_cons (d : deferred) (chain : list deferred) (p : Process) :
  run_after Setenv_ok mockFinish (d :: chain) p
  = (p' ← run_deferred Setenv_ok mockFinish d p;
     run_after Setenv_ok mockFinish chain p').
Proof. reflexivity. Qed.

Lemma run_after_Finish (chain : list deferred) (p : Process) :
  mockFinish = Return tt ->
  run_after Setenv_ok mockFinish (MockFinish :: chain) p
  = run_after Setenv_ok mockFinish chain p.
Proof. intros H. rewrite run_after_cons. simpl. now rewrite H. Qed.

Lemma SetEnvs_afterFunc_prefix (st st' : Fixture * Process)
  (namesAndValues : option (list string)) :
  SetEnvs Setenv_ok (rtype := rtype) (data := data) st namesAndValues
  = Return st' ->
  afterFunc st.1 `prefix_of` afterFunc st'.1.
Proof.
  unfold SetEnvs. cbv zeta.
  destruct (_ && _); [discriminate|].
  destruct (_ =? 1)%nat; [discriminate|].
  destruct (splitPairs _) as [pairs|]; [|discriminate].
  intros [= <-]. revert st. induction pairs as [|pair pairs IH]; intros st;
    simpl; [reflexivity|].
  etransitivity; [|apply IH]. rewrite SetEnv_afterFunc. now apply prefix_app_r.
Qed.

(** Running the restores of [p0] brings the names back to what they are
    in [p0] and touches nothing else. *)
Lemma run_restores (p0 : Process) (names : list string) (p : Process) :
  Environ_settable Setenv_ok p0 ->
  exists p',
    run_after Setenv_ok mockFinish (map (restore_of p0) names) p = Return p'
    /\ os_Args p' = os_Args p
    /\ (forall n, n ∈ names -> Environ p' !! n = Environ p0 !! n)
    /\ (forall n, n ∉ names -> Environ p' !! n = Environ p !! n).
Proof.
  intros Hok. revert p; induction names as [|n0 names IH]; intros p.
  - exists p. repeat split. intros n Hn. inversion Hn.
  - set (p1 := match Environ p0 !! n0 with
               | Some v => mkProcess (<[n0 := v]> (Environ p)) (os_Args p)
               | None => mkProcess (delete n0 (Environ p)) (os_Args p)
               end).
    assert (run_deferred Setenv_ok mockFinish (restore_of p0 n0) p = Return p1) as E.
    { unfold restore_of, p1. destruct (Environ p0 !! n0) as [v|] eqn:Ev; simpl.
      - unfold os_Setenv. now rewrite (Hok n0 v Ev).
      - reflexivity. }
    assert (os_Args p1 = os_Args p) as Ha
      by (unfold p1; now destruct (Environ p0 !! n0)).
    assert (Environ p1 !! n0 = Environ p0 !! n0) as Hn0.
    { unfold p1. destruct (Environ p0 !! n0) as [v|]; cbn [Environ];
        [apply lookup_insert_eq | apply lookup_delete_eq]. }
    assert (forall n, n <> n0 -> Environ p1 !! n = Environ p !! n) as Hother.
    { intros n Hne. unfold p1. destruct (Environ p0 !! n0) as [v|]; cbn [Environ];
        [now apply lookup_insert_ne | now apply lookup_delete_ne]. }
    destruct (IH p1) as (p' & Hrun & Hargs & Hin & Hout).
    exists p'. cbn [map]. rewrite run_after_cons, E. cbn [mbind outcome_bind].
    split; [exact Hrun|]. split; [congruence|]. split.
    + intros n [->|Hn]%elem_of_cons; [|now apply Hin].
      destruct (decide (n0 ∈ names)) as [Hi|Hni]; [now apply Hin|].
      now rewrite Hout.
    + intros n [Hne Hn]%not_elem_of_cons. rewrite Hout by assumption.
      now apply Hother.
Qed.

(** X20. After [SetEnvs] on pairs with distinct names, every name whose
    pair [os.Setenv] accepts is set to the value of its pair, the names
    that are not in a pair keep what they had, and [os.Args] is not
    touched. *)
Theorem SetEnvs_sets (x : Fixture) (p : Process)
  (pairs : list (string * string)) :
  pairs <> [] ->
  NoDup pairs.*1 ->
  exists x' p',
    SetEnvs Setenv_ok (rtype := rtype) (data := data) (x, p)
      (Some (names_and_values pairs)) = Return (x', p')
    /\ (forall name val, (name, val) ∈ pairs -> Setenv_ok name val = true ->
                         os_LookupEnv name p' = Some val)
    /\ (forall name, name ∉ pairs.*1 ->
                     os_LookupEnv name p' = os_LookupEnv name p)
    /\ os_Args p' = os_Args p.
Proof.
  intros Hne Hnd. rewrite (SetEnvs_pairs _ _ Hne).
  destruct (set_all_Environ pairs (x, p) Hnd) as (Hset & Hkeep & Hargs).
  destruct (set_all pairs (x, p)) as [x' p'] eqn:E.
  exists x', p'. split; [reflexivity|]. repeat split; assumption.
Qed.

(** X21. [SetEnvs] with distinct names on a new fixture, followed by
    [Done], leaves the process as it was before: every name it set is back
    at its old value or unset again. This needs the mock controller's
    [Finish] to return and the old values to be ones [os.Setenv]
    accepts. *)
Theorem SetEnvs_Done_restores (p : Process) (pairs : list (string * string)) :
  mockFinish = Return tt ->
  Environ_settable Setenv_ok p ->
  pairs <> [] ->
  NoDup pairs.*1 ->
  exists x' p',
    SetEnvs Setenv_ok (rtype := rtype) (data := data) (NewFixture, p)
      (Some (names_and_values pairs)) = Return (x', p')
    /\ Done Setenv_ok mockFinish x' p' = Return p.
Proof.
  intros Hfin Hok Hne Hnd. rewrite (SetEnvs_pairs _ _ Hne).
  destruct (set_all_Environ pairs (NewFixture, p) Hnd) as (_ & Hkeep & Hargs).
  pose proof (set_all_afterFunc pairs (NewFixture, p) Hnd) as Hchain.
  destruct (set_all pairs (NewFixture, p)) as [x' p'] eqn:E.
  cbn [fst snd] in *. exists x', p'. split; [reflexivity|].
  unfold Done. rewrite Hchain. cbn [NewFixture afterFunc app].
  rewrite (run_after_Finish _ _ Hfin).
  destruct (run_restores p pairs.*1 p' Hok) as (p'' & Hrun & Ha & Hin & Hout).
  rewrite Hrun. f_equal.
  destruct p'' as [env'' args''], p as [env0 args0]. cbn [Environ os_Args] in *.
  f_equal; [|congruence].
  apply map_eq. intros n. destruct (decide (n ∈ pairs.*1)) as [Hi|Hni].
  - now apply Hin.
  - rewrite Hout by assumption. now apply Hkeep.
Qed.

(** X22. The deferred functions run oldest first, so a name that is set
    twice is not restored: [Done] first puts back the value from before
    the first [SetEnv] and then the value the first [SetEnv] gave it. *)
Theorem SetEnv_twice_Done (p : Process) (name val1 val2 : string) :
  mockFinish = Return tt ->
  Setenv_ok name val1 = true ->
  exists p',
    Done Setenv_ok mockFinish
      (SetEnv' name val2 (SetEnv' name val1 (NewFixture, p))).1
      (SetEnv' name val2 (SetEnv' name val1 (NewFixture, p))).2
    = Return p'
    /\ os_LookupEnv name p' = Some val1.
Proof.
  intros Hfin Hok. unfold Done.
  rewrite !SetEnv_afterFunc.
  assert (restore_of (SetEnv' name val1 (NewFixture, p)).2 name
          = RestoreEnv name val1) as ->.
  { unfold restore_of.
    rewrite SetEnv_Environ, decide_True, Hok by reflexivity. reflexivity. }
  change (afterFunc (NewFixture, p).1) with [MockFinish].
  change ((NewFixture, p).2) with p. cbn [app].
  rewrite (run_after_Finish _ _ Hfin), !run_after_cons.
  destruct (run_deferred Setenv_ok mockFinish (restore_of p name) _)
    as [p1| |] eqn:E;
    [|unfold restore_of in E; destruct (Environ p !! name); discriminate..].
  cbn [mbind outcome_bind run_deferred run_after]. eexists.
  split; [reflexivity|].
  unfold os_LookupEnv, os_Setenv. rewrite Hok. cbn [Environ].
  apply lookup_insert_eq.
Qed.

(** What a chain whose first function does not return leaves behind. *)
Lemma left_by_stops (d : deferred) (chain : list deferred) (p : Process)
  (f : diag rtype data) :
  run_deferred Setenv_ok mockFinish d p = Fatalf f ->
  left_by Setenv_ok mockFinish (d :: chain) p = p.
Proof. intros H. simpl. now rewrite H. Qed.

(** X23. When the mock controller's [Finish] fails the test, [Done] ends
    there: [Finish] is the oldest function of the chain, so nothing
    [SetEnvs] deferred has run and the process, its environment with it,
    stays as [SetEnvs] left it. *)
Theorem Done_stops_at_Finish (p : Process)
  (namesAndValues : option (list string)) (x' : Fixture) (p' : Process)
  (d : diag rtype data) :
  mockFinish = Fatalf d ->
  SetEnvs Setenv_ok (rtype := rtype) (data := data) (NewFixture, p)
    namesAndValues = Return (x', p') ->
  (exists restores, afterFunc x' = MockFinish :: restores)
  /\ Done Setenv_ok mockFinish x' p' = Fatalf d
  /\ left_by Setenv_ok mockFinish (afterFunc x') p' = p'.
Proof.
  intros Hfin H.
  destruct (SetEnvs_afterFunc_prefix _ _ _ H) as [rest Hrest].
  cbn [fst snd NewFixture afterFunc app] in Hrest.
  assert (run_deferred Setenv_ok mockFinish MockFinish p' = Fatalf d) as E
    by (simpl; now rewrite Hfin).
  split; [now exists rest|]. rewrite Hrest. split.
  - unfold Done. rewrite Hrest, run_after_cons, E. reflexivity.
  - exact (left_by_stops _ _ _ _ E).
Qed.

(** X24. [SetArgs] makes [os.Args] the given arguments, of which
    [commandArg] is the first, or "fakeCommand" when there is none. On a
    new fixture [Done] then puts [os.Args] back when it was not nil; when
    it was nil nothing was deferred and the given arguments stay. *)
Theorem SetArgs_Done (p : Process) (args : list string) :
  mockFinish = Return tt ->
  let st := SetArgs args (NewFixture, p) in
  os_Args st.2 = Some args
  /\ commandArg st.2 = hd "fakeCommand" args
  /\ Environ st.2 = Environ p
  /\ Done Setenv_ok mockFinish st.1 st.2
     = Return (match os_Args p with Some _ => p | None => st.2 end).
Proof.
  intros Hfin st. unfold st, SetArgs, restoreExistingArgsAfter, Done, commandArg.
  destruct p as [env [a0|]];
    cbn [fst snd os_Args Environ afterFunc x_args DoAfter NewFixture app];
    rewrite (run_after_Finish _ _ Hfin); cbn;
    (split; [reflexivity|]); (split; [now destruct args|]);
    split; reflexivity.
Qed.

(** X25. [SetArgs] twice is not undone by [Done] either: the older
    deferred function runs first, and [os.Args] ends as the arguments of
    the first call. *)
Theorem SetArgs_twice_Done (p : Process) (args1 args2 : list string) :
  mockFinish = Return tt ->
  exists p',
    Done Setenv_ok mockFinish
      (SetArgs args2 (SetArgs args1 (NewFixture, p))).1
      (SetArgs args2 (SetArgs args1 (NewFixture, p))).2
    = Return p'
    /\ os_Args p' = Some args1.
Proof.
  intros Hfin. unfold SetArgs, restoreExistingArgsAfter, Done.
  destruct p as [env [a0|]];
    cbn [fst snd os_Args Environ afterFunc x_args DoAfter NewFixture app];
    rewrite (run_after_Finish _ _ Hfin); cbn;
    eexists; (split; [reflexivity|]); reflexivity.
Qed.

End EnvironmentFacts.

(** The examples: [unix_Setenv_ok] for [os.Setenv], a [Finish] that
    returns, the process [process_start] and the pairs [env_pairs]. *)

Lemma process_start_settable : Environ_settable unix_Setenv_ok process_start.
Proof.
  intros name val H. unfold process_start in H. cbn [Environ] in H.
  apply lookup_singleton_Some in H as [<- <-]. reflexivity.
Qed.

Lemma env_pairs_NoDup : NoDup env_pairs.*1.
Proof.
  apply NoDup_cons. split; [|apply NoDup_singleton].
  intros H%list_elem_of_singleton. discriminate H.
Qed.

Lemma SetEnvs_sets_witness :
  exists x' p',
    SetEnvs unix_Setenv_ok (rtype := basic) (data := basic_data)
      (NewFixture, process_start) (Some (names_and_values env_pairs))
    = Return (x', p')
    /\ (forall name val, (name, val) ∈ env_pairs ->
                         unix_Setenv_ok name val = true ->
                         os_LookupEnv name p' = Some val)
    /\ (forall name, name ∉ env_pairs.*1 ->
                     os_LookupEnv name p' = os_LookupEnv name process_start)
    /\ os_Args p' = os_Args process_start.
Proof.
  apply (SetEnvs_sets (rtype := basic) (data := basic_data) unix_Setenv_ok
           NewFixture process_start env_pairs).
  - discriminate.
  - exact env_pairs_NoDup.
Defined.

Lemma SetEnvs_Done_restores_witness :
  exists x' p',
    SetEnvs unix_Setenv_ok (rtype := basic) (data := basic_data)
      (NewFixture, process_start) (Some (names_and_values env_pairs))
    = Return (x', p')
    /\ Done (rtype := basic) (data := basic_data) unix_Setenv_ok (Return tt)
         x' p'
       = Return process_start.
Proof.
  apply (SetEnvs_Done_restores (rtype := basic) (data := basic_data)
           unix_Setenv_ok (Return tt) process_start env_pairs).
  - reflexivity.
  - exact process_start_settable.
  - discriminate.
  - exact env_pairs_NoDup.
Defined.

Lemma SetEnv_twice_Done_witness :
  exists p',
    Done (rtype := basic) (data := basic_data) unix_Setenv_ok (Return tt)
      (SetEnv unix_Setenv_ok "HOME" "/tmp/b"
         (SetEnv unix_Setenv_ok "HOME" "/tmp/a" (NewFixture, process_start))).1
      (SetEnv unix_Setenv_ok "HOME" "/tmp/b"
         (SetEnv unix_Setenv_ok "HOME" "/tmp/a" (NewFixture, process_start))).2
    = Return p'
    /\ os_LookupEnv "HOME" p' = Some "/tmp/a".
Proof.
  apply (SetEnv_twice_Done (rtype := basic) (data := basic_data)
           unix_Setenv_ok (Return tt) process_start "HOME" "/tmp/a" "/tmp/b").
  - reflexivity.
  - reflexivity.
Defined.

(** [SetEnvs("HOME", "/tmp/home", "MODE", "test")] and then [Done] with a
    [Finish] that fails the test: HOME, which was /root, and MODE, which
    was not set, are not put back. *)
Lemma Done_stops_at_Finish_witness :
  (os_LookupEnv "HOME" process_env = Some "/tmp/home"
   /\ os_LookupEnv "MODE" process_env = Some "test")
  /\ (exists restores, afterFunc fixture_env = MockFinish :: restores)
  /\ Done (rtype := basic) (data := basic_data) unix_Setenv_ok
       (Fatalf (mkDiag "missing call(s)" [])) fixture_env process_env
     = Fatalf (mkDiag "missing call(s)" [])
  /\ left_by (rtype := basic) (data := basic_data) unix_Setenv_ok
       (Fatalf (mkDiag "missing call(s)" [])) (afterFunc fixture_env) process_env
     = process_env.
Proof.
  split; [split; vm_compute; reflexivity|].
  apply (Done_stops_at_Finish (rtype := basic) (data := basic_data)
           unix_Setenv_ok (Fatalf (mkDiag "missing call(s)" []))
           process_start (Some (names_and_values env_pairs))
           fixture_env process_env (mkDiag "missing call(s)" [])).
  - reflexivity.
  - vm_compute; reflexivity.
Defined.

Lemma SetArgs_Done_witness :
  let st := SetArgs ["app"; "--dry-run"] (NewFixture, process_start) in
  os_Args st.2 = Some ["app"; "--dry-run"]
  /\ commandArg st.2 = hd "fakeCommand" ["app"; "--dry-run"]
  /\ Environ st.2 = Environ process_start
  /\ Done (rtype := basic) (data := basic_data) unix_Setenv_ok (Return tt)
       st.1 st.2
     = Return (match os_Args process_start with
               | Some _ => process_start
               | None => st.2
               end).
Proof.
  apply (SetArgs_Done (rtype := basic) (data := basic_data) unix_Setenv_ok
           (Return tt) process_start ["app"; "--dry-run"]).
  reflexivity.
Defined.

Lemma SetArgs_twice_Done_witness :
  exists p',
    Done (rtype := basic) (data := basic_data) unix_Setenv_ok (Return tt)
      (SetArgs ["b"] (SetArgs ["a"] (NewFixture, process_start))).1
      (SetArgs ["b"] (SetArgs ["a"] (NewFixture, process_start))).2
    = Return p'
    /\ os_Args p' = Some ["a"].
Proof.
  apply (SetArgs_twice_Done (rtype := basic) (data := basic_data)
           unix_Setenv_ok (Return tt) process_start ["a"] ["b"]).
  reflexivity.
Defined.

(** * The capture store on the stacks the runtime reports *)

Lemma resolved_resolve (i : nat) (fr : RawFrame) :
  resolved fr = true -> exists f, resolve i fr = Some f.
Proof.
  unfold resolved, resolve. destruct (String.eqb _ _); [discriminate|].
  destruct (raw_func fr); [intros _; now eexists | discriminate].
Qed.

(** On a stack the runtime reports the walk resolves every frame from
    depth 3 to the outermost. *)
Lemma reported_walk_frames (stk : goroutine) (k : nat) :
  forallb resolved stk = true ->
  is_Some (CallerFuncInfo stk 1) ->
  (3 + k < length stk)%nat ->
  walk_frames stk !! k = CallerFuncInfo stk (3 + k).
Proof.
  intros Hall [thisRef Ht] Hk. unfold walk_frames. rewrite Ht.
  destruct (walked_reaches (drop 3 stk) 3 k) as (fr & Hfr & Hw).
  { intros j Hj.
    destruct (lookup_lt_is_Some_2 (drop 3 stk) j) as [fr Hfr];
      [rewrite length_drop; lia|].
    assert (resolved fr = true) as Hr.
    { rewrite forallb_forall in Hall. apply Hall, list_elem_of_In.
      rewrite lookup_drop in Hfr. now apply list_elem_of_lookup_2 in Hfr. }
    destruct (resolved_resolve (3 + j) fr Hr) as [f Hf]. now exists fr, f. }
  now rewrite Hw, CallerFuncInfo_drop, Hfr.
Qed.

(** On a stack the runtime reports the walk finds a caller: its outermost
    frame, if no frame before it, lies outside the package of the
    walker. *)
Lemma reported_Caller (stk : goroutine) :
  reported stk = true -> exists c, Caller (BuildCallerStack stk) = Some c.
Proof.
  unfold reported. intros H.
  apply andb_true_iff in H as [H Hout]. apply andb_true_iff in H as [Hall Hlen].
  apply Nat.ltb_lt in Hlen.
  destruct (CallerFuncInfo stk 1) as [thisRef|] eqn:Ht; [|discriminate].
  destruct (CallerFuncInfo stk (length stk - 1)) as [o|] eqn:Ho; [|discriminate].
  apply negb_true_iff, String.eqb_neq in Hout.
  assert (o ∈ walk_frames stk) as Hin.
  { apply (list_elem_of_lookup_2 _ (length stk - 4)%nat).
    rewrite reported_walk_frames; [|assumption | now exists thisRef | lia].
    now replace (3 + (length stk - 4))%nat with (length stk - 1)%nat by lia. }
  rewrite (BuildCallerStack_run _ _ Ht).
  destruct (split_at_first (outside thisRef) (walk_frames stk))
    as [Hins|(pre & f & post & Heq & Hpre & Hf)].
  - exfalso. rewrite Forall_forall in Hins. now apply (Hins o Hin).
  - exists f. rewrite Heq.
    apply run_Caller_first; [reflexivity | now apply not_outside | exact Hf].
Qed.

Section CaptureStoreReported.

Context {rtype data : Type}.
Variable AssignableTo : rtype -> rtype -> bool.

Local Abbreviation store := (BaseTest rtype data).
Local Abbreviation value := (any rtype data).

(** C6. A call of [Capture] on a stack the runtime reports. When the walk
    finds no mock frame, the values are appended to the global sequence
    only, the buckets staying as they are, and one line that names the
    caller is logged; the call returns. When the walk finds a mock frame,
    the key joins the receiver type and the function name of [Mocker] and
    those of [Mocked] with dots, and the values are appended to the bucket
    of that key and to the global sequence, after what each held. So
    [Capture(a)] and then [Capture(b)] with the same mock frames on the
    stack both return, and [CapturedFrom] of the key then returns what the
    bucket held before followed by [a] and [b], in this order. *)
Theorem Capture_on_reported_stack (x : store) (stk : goroutine)
  (values : list value) :
  reported stk = true ->
  let s := BuildCallerStack stk in
  (Mocked s = None ->
   exists c,
     Caller s = Some c
     /\ Capture x stk values =
        Return (mkBaseTest (captured x ++ values) (capsFrom x)
                  (logged x ++ [mkDiag "NO MOCK FOUND FOR CAPTURE from %s"
                                  [ArgString (LogString (info c))]])))
  /\ (forall mocked : FuncInfoRef,
        Mocked s = Some mocked ->
        exists mocker,
          Mocker s = Some mocker
          /\ let key := Join [Object (info mocker); Function (info mocker);
                              Object (info mocked); Function (info mocked)] "." in
             Capture x stk values =
             Return (mkBaseTest (captured x ++ values)
                       (<[key := (default [] (capsFrom x !! key) ++ values)%list]>
                          (capsFrom x))
                       (logged x))
             /\ forall (a b : value) (order : list string) (stk' : goroutine),
                  exists x1 x2,
                    Capture x stk [a] = Return x1
                    /\ Capture x1 stk [b] = Return x2
                    /\ CapturedFrom x2 order stk' key =
                       Return (default [] (capsFrom x !! key) ++ [a; b])%list).
Proof.
  intros Hrep s. split.
  - intros Hm. destruct (reported_Caller stk Hrep) as [c Hc]. exists c.
    split; [exact Hc | now apply Capture_no_mock].
  - intros mocked Hm. destruct (Mocked_set_Mocker_set _ _ Hm) as [mocker Hr].
    exists mocker. split; [exact Hr|]. intros key.
    split; [exact (Capture_mocked x stk values _ _ Hm Hr)|].
    intros a b order stk'.
    pose proof (Capture_mocked x stk [a] _ _ Hm Hr) as E1. cbv zeta in E1.
    fold key in E1. rewrite E1.
    eexists. eexists. split; [reflexivity|].
    pose proof (Capture_mocked
                  (mkBaseTest (captured x ++ [a])
                     (<[key := (default [] (capsFrom x !! key) ++ [a])%list]>
                        (capsFrom x)) (logged x))
                  stk [b] _ _ Hm Hr) as E2.
    cbv zeta in E2. fold key in E2. split; [exact E2|].
    apply CapturedFrom_found. cbn [capsFrom].
    rewrite lookup_insert_eq, lookup_insert_eq. cbn [default from_option id].
    now rewrite <- app_assoc.
Qed.

(** C7, as the code has it. [CapturedOfType], the keys being ranged over
    in [order] and the stack being one the runtime reports, reads the
    buckets and nothing else: it returns the values of the buckets whose
    type is assignable to the expected type, each as often as the buckets
    hold it, and it calls [Fatalf] when no value of a bucket is, as on a
    store with no bucket. A value [Capture] took with no mock frame on the
    stack is in the global sequence and in no bucket, and is not
    returned. *)
Theorem CapturedOfType_of_buckets (x : store) (order : list string)
  (stk : goroutine) (expectTypeOf : value) :
  order ≡ₚ (map_to_list (capsFrom x)).*1 ->
  reported stk = true ->
  let of_bucket (v : value) :=
    exists key bucket,
      capsFrom x !! key = Some bucket /\ v ∈ bucket
      /\ Match AssignableTo expectTypeOf v = Some true in
  match CapturedOfType AssignableTo x order stk expectTypeOf with
  | Return caps =>
      caps <> [] /\ caps ≡ₚ matching AssignableTo x expectTypeOf
      /\ (forall v, v ∈ caps <-> of_bucket v)
  | Fatalf d =>
      (forall v, ~ of_bucket v)
      /\ exists c, GetCallerInfo stk = Some c
           /\ d = mkDiag "There were no captured parameters of type %T for %s"
                   [ArgType (TypeOf expectTypeOf);
                    ArgString (LogString (info c))]
  | Panic _ => False
  end
  /\ (capsFrom x = ∅ ->
      exists d, CapturedOfType AssignableTo x order stk expectTypeOf = Fatalf d).
Proof.
  intros Ho Hrep of_bucket.
  pose proof (CapturedOfType_cases AssignableTo x order stk expectTypeOf Ho) as H.
  destruct (reported_Caller stk Hrep) as [c Hc].
  assert (forall v, v ∈ matching AssignableTo x expectTypeOf <-> of_bucket v)
    as Hin by (intros v; apply elem_of_matching).
  destruct (CapturedOfType AssignableTo x order stk expectTypeOf)
    as [caps|d|p].
  - destruct H as [Hne Hp]. split.
    + split; [exact Hne|]. split; [exact Hp|].
      intros v. now rewrite Hp.
    + intros He. exfalso. apply Hne.
      apply Permutation_nil. rewrite Hp. unfold matching.
      rewrite He, map_to_list_empty. reflexivity.
  - destruct H as [Hm Hd]. split; [|intros _; now exists d].
    split; [|exact Hd].
    intros v Hv. apply Hin in Hv. rewrite Hm in Hv. inversion Hv.
  - destruct H as (_ & Hn & _). unfold GetCallerInfo in Hn. congruence.
Qed.

End CaptureStoreReported.

(** [Capture(42)] by a test with no mock on the stack; [Capture("a")]
    under the mock of [stack_mocked] where the bucket of the key held 42;
    and [Capture("a")], [Capture("b")] under that mock on a new store,
    after which [CapturedFrom] of the key returns "a", "b". *)
Lemma Capture_on_reported_stack_witness :
  Capture New (stack_direct "Capture" 219) [int_ 42] = Return store_direct_42
  /\ Capture store_mocked_42 stack_mocked [string_ "a"]
     = Return store_mocked_42_a
  /\ exists x1 x2,
       Capture New stack_mocked [string_ "a"] = Return x1
       /\ Capture x1 stack_mocked [string_ "b"] = Return x2
       /\ CapturedFrom x2 [key_mocked] (stack_lookup "CapturedFrom" 289)
            key_mocked
          = Return [string_ "a"; string_ "b"].
Proof.
  assert (reported (stack_direct "Capture" 219) = true) as Hd
    by (vm_compute; reflexivity).
  assert (reported stack_mocked = true) as Hk by (vm_compute; reflexivity).
  pose (mocked := mkRef 6 (NewFuncInfo
                             (ptr_method "example.com/app/mock" "MockLogger" "Info")
                             "app/mock/mockLogger.go" 58)).
  pose (mocker := mkRef 7 (NewFuncInfo
                             (ptr_method "example.com/app" "Service" "Send")
                             "app/service.go" 40)).
  assert (Mocked (BuildCallerStack stack_mocked) = Some mocked) as Hm
    by (vm_compute; reflexivity).
  assert (Mocker (BuildCallerStack stack_mocked) = Some mocker) as Hr
    by (vm_compute; reflexivity).
  assert (Join [Object (info mocker); Function (info mocker);
                Object (info mocked); Function (info mocked)] "." = key_mocked)
    as Hkey by (vm_compute; reflexivity).
  split; [|split].
  - destruct (Capture_on_reported_stack (New (rtype := basic) (data := basic_data))
                (stack_direct "Capture" 219) [int_ 42] Hd) as [H _].
    destruct H as (c & Hc & E); [vm_compute; reflexivity|].
    assert (Some c = Some (mkRef 3 (NewFuncInfo "example.com/app.TestFoo"
                                      "app/app_test.go" 12))) as Hc'
        by (rewrite <- Hc; vm_compute; reflexivity).
    injection Hc' as ->. exact E.
  - destruct (Capture_on_reported_stack store_mocked_42 stack_mocked
                [string_ "a"] Hk) as [_ H].
    destruct (H mocked Hm) as (mocker' & Hr' & E & _).
    assert (mocker' = mocker) as -> by congruence.
    rewrite Hkey in E.
    assert (capsFrom store_mocked_42 !! key_mocked = Some [int_ 42]) as Hb
      by apply lookup_singleton_eq.
    rewrite Hb in E.
    cbn [default app captured capsFrom logged store_mocked_42] in E.
    rewrite insert_singleton_eq in E. exact E.
  - destruct (Capture_on_reported_stack (New (rtype := basic) (data := basic_data))
                stack_mocked [string_ "a"] Hk) as [_ H].
    destruct (H mocked Hm) as (mocker' & Hr' & _ & Htwice).
    assert (mocker' = mocker) as -> by congruence.
    rewrite Hkey in Htwice.
    destruct (Htwice (string_ "a") (string_ "b") [key_mocked]
                (stack_lookup "CapturedFrom" 289)) as (x1 & x2 & E1 & E2 & E3).
    unfold New in E3. cbn [capsFrom] in E3. rewrite lookup_empty in E3.
    exists x1, x2. split; [exact E1|]. split; [exact E2 | exact E3].
Defined.

(** C7 as it is stated fails after [Capture(42)] with no mock on the
    stack: 42 is a captured value and an [int], and [CapturedOfType(0)]
    does not return it; it fails the test. *)
Lemma CapturedOfType_misses_unmocked :
  Capture New (stack_direct "Capture" 219) [int_ 42] = Return store_direct_42
  /\ int_ 42 ∈ AllCaptured store_direct_42
  /\ Match basic_AssignableTo (int_ 0) (int_ 42) = Some true
  /\ [] ≡ₚ (map_to_list (capsFrom store_direct_42)).*1
  /\ CapturedOfType basic_AssignableTo store_direct_42 []
       (stack_lookup "CapturedOfType" 261) (int_ 0)
     = Fatalf (mkDiag "There were no captured parameters of type %T for %s"
                 [ArgType (Some Int);
                  ArgString "example.com/app.TestFoo at app/app_test.go:12"])
  /\ ~ (exists caps,
          CapturedOfType basic_AssignableTo store_direct_42 []
            (stack_lookup "CapturedOfType" 261) (int_ 0) = Return caps
          /\ int_ 42 ∈ caps).
Proof.
  assert (CapturedOfType basic_AssignableTo store_direct_42 []
            (stack_lookup "CapturedOfType" 261) (int_ 0)
          = Fatalf (mkDiag "There were no captured parameters of type %T for %s"
                      [ArgType (Some Int);
                       ArgString "example.com/app.TestFoo at app/app_test.go:12"]))
    as E by (vm_compute; reflexivity).
  split; [exact Capture_direct_42|]. split; [apply list_elem_of_here|].
  split; [reflexivity|]. split; [|split; [exact E|]].
  - unfold store_direct_42. cbn [capsFrom]. now rewrite map_to_list_empty.
  - intros (caps & Hc & _). rewrite E in Hc. discriminate Hc.
Qed.

(** [store_mocked_42] holds the [int] 42 in the bucket of [key_mocked]:
    asked for an [int], [CapturedOfType] returns it. *)
Lemma CapturedOfType_of_buckets_witness :
  CapturedOfType basic_AssignableTo store_mocked_42 [key_mocked]
    (stack_lookup "CapturedOfType" 261) (int_ 0)
  = Return [int_ 42]
  /\ (forall v, v ∈ [int_ 42] <->
        exists key bucket,
          capsFrom store_mocked_42 !! key = Some bucket /\ v ∈ bucket
          /\ Match basic_AssignableTo (int_ 0) v = Some true).
Proof.
  assert (reported (stack_lookup "CapturedOfType" 261) = true) as Hrep
    by (vm_compute; reflexivity).
  pose proof (CapturedOfType_of_buckets basic_AssignableTo store_mocked_42
                [key_mocked] (stack_lookup "CapturedOfType" 261) (int_ 0)
                order_mocked_42 Hrep) as [H _].
  assert (CapturedOfType basic_AssignableTo store_mocked_42 [key_mocked]
            (stack_lookup "CapturedOfType" 261) (int_ 0)
          = Return [int_ 42]) as E
    by (vm_compute; reflexivity).
  rewrite E in H. split; [exact E|]. exact (proj2 (proj2 H)).
Defined.
